(** * Portable CPU kernels [fmod.Tensor_out] and [fmod.Scalar_out]

    A shallow embedding of [kernels/portable/cpu/op_fmod.cpp] and of the
    pieces of the runtime it calls, followed by the properties the
    specification states about them.

    - C++ values are integers ([Z], wrapped to the width of their type) or
      IEEE-754 binary floats ([spec_float] of the Standard Library, with
      the precision and exponent range of [float] and [double]).
    - The kernels mutate [out] through a reference and may abort in an
      [ET_CHECK]; they are written in a small state-and-abort monad whose
      state holds the operands of the call. *)

From Stdlib Require Import ZArith Lia.
From Stdlib Require Import SpecFloat.
From stdpp Require Import base tactics option list.

Local Open Scope Z_scope.

(** ** Element types *)

(** Modelled from the spec: the type-tag enumeration ([ScalarType], declared
    in the runtime headers, not in [op_fmod.cpp]).  The spec (section 3)
    fixes the set to unsigned/signed integers of several widths, floating
    point of several widths, and boolean. *)
Inductive ScalarType : Set :=
  | Byte    (* uint8_t *)
  | Char    (* int8_t  *)
  | Short   (* int16_t *)
  | Int     (* int32_t *)
  | Long    (* int64_t *)
  | Float   (* float   *)
  | Double  (* double  *)
  | Bool.   (* bool    *)

#[global] Instance ScalarType_eq_dec : EqDecision ScalarType.
Proof. solve_decision. Defined.

(** Modelled from the spec: [isIntegralType(t, includeBool)], a header
    function; integral types are the integer tags, plus boolean on demand. *)
Definition isIntegralType (t : ScalarType) (includeBool : bool) : bool :=
  match t with
  | Byte | Char | Short | Int | Long => true
  | Bool => includeBool
  | Float | Double => false
  end.

(** Modelled from the spec: [isFloatingType], the floating tags. *)
Definition isFloatingType (t : ScalarType) : bool :=
  match t with
  | Float | Double => true
  | _ => false
  end.

(** Modelled from the spec: the "real numeric types" of the dispatch
    macros, every tag but boolean (spec, section 4.4). *)
Definition isRealType (t : ScalarType) : bool :=
  match t with
  | Bool => false
  | _ => true
  end.

(** Modelled from the spec: [promoteTypes], a header function (spec, section
    4.2): booleans promote below every integer type; the same-width
    signed/unsigned mix goes to a wider signed type; an integer mixed with a
    floating type gives that floating type; two floating types give the
    wider one. *)
Definition promoteTypes (a b : ScalarType) : ScalarType :=
  match a, b with
  | Byte, Byte => Byte
  | Byte, Char => Short
  | Byte, Short => Short
  | Byte, Int => Int
  | Byte, Long => Long
  | Byte, Float => Float
  | Byte, Double => Double
  | Byte, Bool => Byte
  | Char, Byte => Short
  | Char, Char => Char
  | Char, Short => Short
  | Char, Int => Int
  | Char, Long => Long
  | Char, Float => Float
  | Char, Double => Double
  | Char, Bool => Char
  | Short, Byte => Short
  | Short, Char => Short
  | Short, Short => Short
  | Short, Int => Int
  | Short, Long => Long
  | Short, Float => Float
  | Short, Double => Double
  | Short, Bool => Short
  | Int, Byte => Int
  | Int, Char => Int
  | Int, Short => Int
  | Int, Int => Int
  | Int, Long => Long
  | Int, Float => Float
  | Int, Double => Double
  | Int, Bool => Int
  | Long, Byte => Long
  | Long, Char => Long
  | Long, Short => Long
  | Long, Int => Long
  | Long, Long => Long
  | Long, Float => Float
  | Long, Double => Double
  | Long, Bool => Long
  | Float, Double => Double
  | Float, _ => Float
  | Double, _ => Double
  | Bool, t => t
  end.

(** ** C++ values *)

(** A value of one of the C types above: an integer (also [bool], as 0 or 1)
    or a binary float. *)
Inductive cvalue : Set :=
  | CInt (z : Z)
  | CFloat (f : spec_float).

(** Two's-complement wrap-around to [w] bits. *)
Definition wrap (signed : bool) (w : Z) (z : Z) : Z :=
  if signed then (z + 2 ^ (w - 1)) mod 2 ^ w - 2 ^ (w - 1)
  else z mod 2 ^ w.

(** Integer to float, round to nearest even. *)
Definition SF_of_Z (prec emax : Z) (z : Z) : spec_float :=
  binary_normalize prec emax z 0 false.

(** Float to a float of another format, round to nearest even. *)
Definition SF_round (prec emax : Z) (f : spec_float) : spec_float :=
  match f with
  | S754_finite s m e => binary_round prec emax s m e
  | _ => f
  end.

(** Float to integer, truncating toward zero.  C++ leaves the conversion of
    a NaN or an infinity undefined; they are sent to 0 here. *)
Definition SF_trunc (f : spec_float) : Z :=
  match f with
  | S754_finite s m e =>
      cond_Zopp s (match e with
                   | Zneg p => Z.pos m / 2 ^ Z.pos p
                   | _ => Z.pos m * 2 ^ e
                   end)
  | _ => 0
  end.

(** [v != 0] is false for the integer 0 and for both float zeros. *)
Definition is_zero (v : cvalue) : bool :=
  match v with
  | CInt z => z =? 0
  | CFloat f => SFeqb f (S754_zero false)
  end.

(** Conversion to a float of the given format. *)
Definition to_float (prec emax : Z) (v : cvalue) : spec_float :=
  match v with
  | CInt z => SF_of_Z prec emax z
  | CFloat f => SF_round prec emax f
  end.

(** Conversion to a [w]-bit integer.  C++ leaves a float outside the range
    of the target undefined; its truncation is wrapped here. *)
Definition to_int (signed : bool) (w : Z) (v : cvalue) : Z :=
  match v with
  | CInt z => wrap signed w z
  | CFloat f => wrap signed w (SF_trunc f)
  end.

(** [static_cast<T>(v)]. *)
Definition static_cast (T : ScalarType) (v : cvalue) : cvalue :=
  match T with
  | Bool => CInt (if is_zero v then 0 else 1)
  | Float => CFloat (to_float 24 128 v)
  | Double => CFloat (to_float 53 1024 v)
  | Byte => CInt (to_int false 8 v)
  | Char => CInt (to_int true 8 v)
  | Short => CInt (to_int true 16 v)
  | Int => CInt (to_int true 32 v)
  | Long => CInt (to_int true 64 v)
  end.

(** IEEE remainder with the sign of the dividend, as [fmod] of the C library
    computes it: [x - n * y] for the integer [n] obtained by truncating
    [x / y].  The result is exact. *)
Definition SFfmod (prec emax : Z) (x y : spec_float) : spec_float :=
  match x, y with
  | S754_nan, _ | _, S754_nan => S754_nan
  | S754_infinity _, _ => S754_nan
  | _, S754_zero _ => S754_nan
  | S754_zero _, _ => x
  | S754_finite _ _ _, S754_infinity _ => x
  | S754_finite sx mx ex, S754_finite _ my ey =>
      let e := Z.min ex ey in
      let r := (Z.pos mx * 2 ^ (ex - e)) mod (Z.pos my * 2 ^ (ey - e)) in
      binary_normalize prec emax (cond_Zopp sx r) e sx
  end.

(** [std::fmod(a, b)] on two values of C type [T], assigned to a variable of
    type [T].  [float] has its own overload; every other arithmetic
    type (the integers included) goes through [double]. *)
Definition std_fmod (T : ScalarType) (a b : cvalue) : cvalue :=
  match T with
  | Float => CFloat (SFfmod 24 128 (to_float 24 128 a) (to_float 24 128 b))
  | _ =>
      static_cast T
        (CFloat (SFfmod 53 1024 (to_float 53 1024 a) (to_float 53 1024 b)))
  end.

Local Close Scope Z_scope.

(** ** Tensors and scalars *)

(** Modelled from the spec: the [Tensor] class of the runtime (spec, section
    3): a shape, an element-type tag and a contiguous buffer of
    [numel] elements. *)
Record Tensor : Set := mkTensor {
  sizes : list nat;
  scalar_type : ScalarType;
  data : list cvalue
}.

Definition shape_numel (s : list nat) : nat := foldr Nat.mul 1 s.
Definition numel (t : Tensor) : nat := shape_numel (sizes t).

(** The buffer has as many elements as the shape asks for. *)
Definition wf_tensor (t : Tensor) : Prop := length (data t) = numel t.

(** Modelled from the spec: the [Scalar] class (spec, section 3): one value
    tagged as boolean, integral or floating. *)
Inductive Scalar : Set :=
  | ScalarBool (v : bool)
  | ScalarInt (v : Z)
  | ScalarDouble (v : spec_float).

(** Modelled from the spec: [utils::get_scalar_dtype], the tag of the
    scalar's own representation ([bool], [int64_t], [double]). *)
Definition get_scalar_dtype (b : Scalar) : ScalarType :=
  match b with
  | ScalarBool _ => Bool
  | ScalarInt _ => Long
  | ScalarDouble _ => Double
  end.

(** Modelled from the spec: [utils::promote_type_with_scalar] (spec, section
    4.2): the promotion table again, with the scalar's tag as the second
    operand. *)
Definition promote_type_with_scalar (t : ScalarType) (b : Scalar) : ScalarType :=
  promoteTypes t (get_scalar_dtype b).

(** The value a scalar holds, in its own representation. *)
Definition scalar_value (b : Scalar) : cvalue :=
  match b with
  | ScalarBool v => CInt (if v then 1 else 0)%Z
  | ScalarInt v => CInt v
  | ScalarDouble v => CFloat v
  end.

(** Modelled from the spec: [ET_EXTRACT_SCALAR(b, val_b)] (spec, section
    4.3): the scalar converted to the requested C type; always succeeds. *)
Definition extract_scalar (b : Scalar) (T : ScalarType) : cvalue :=
  static_cast T (scalar_value b).

(** ** Failures and the kernel monad *)

(** The failure kinds of the spec (section 7), and the allocation failure of
    the resize primitive (section 6). *)
Inductive ErrorKind : Set :=
  | ShapeMismatch
  | UnsupportedType
  | CastNotAllowed
  | DomainViolation
  | AllocError.

(** The [Error] code returned by [resize_tensor]. *)
Module Error.
Inductive t : Set := Ok | MemoryAllocationFailed.
#[global] Instance eq_dec : EqDecision t.
Proof. solve_decision. Defined.
End Error.

(** The objects a call refers to: the inputs, passed by const reference, and
    the output tensor. *)
Record Operands (I : Type) : Type := mkOperands {
  ins : I;
  out : Tensor
}.
Arguments mkOperands {I} _ _.
Arguments ins {I} _.
Arguments out {I} _.

(** A kernel step either goes on with a value and a state, or aborts the
    call; the state at the abort is kept. *)
Inductive res (S A : Type) : Type :=
  | Ok (x : A) (s : S)
  | Abort (k : ErrorKind) (s : S).
Arguments Ok {S A} _ _.
Arguments Abort {S A} _ _.

Definition M (S A : Type) : Type := S -> res S A.

Definition ret {S A} (x : A) : M S A := fun s => Ok x s.

Definition bind {S A B} (c : M S A) (k : A -> M S B) : M S B :=
  fun s =>
    match c s with
    | Ok x s' => k x s'
    | Abort e s' => Abort e s'
    end.

Notation "'let*' x ':=' c 'in' k" := (bind c (fun x => k))
  (at level 10, x name, c at level 100, k at level 200, only parsing).
Notation "'do*' c 'in' k" := (bind c (fun _ => k))
  (at level 10, c at level 100, k at level 200, only parsing).

(** The state a computation ends in, whichever way it ends. *)
Definition final_state {S A} (r : res S A) : S :=
  match r with
  | Ok _ s => s
  | Abort _ s => s
  end.

(** Modelled from the spec: the [ET_CHECK] macro of the runtime (spec,
    sections 4.2 and 7): a false condition is fatal and aborts the call.
    The kind names the check site in the spec's taxonomy. *)
Definition ET_CHECK {S} (k : ErrorKind) (cond : bool) : M S unit :=
  fun s => if cond then Ok tt s else Abort k s.

(** Reading [out] through its reference. *)
Definition get_out {I} : M (Operands I) Tensor :=
  fun s => Ok (out s) s.

(** [data_out[i] = v]: a write outside the buffer is undefined in C++ and
    changes nothing here. *)
Definition store_out {I} (i : nat) (v : cvalue) : M (Operands I) unit :=
  fun s =>
    let o := out s in
    Ok tt (mkOperands (ins s)
             (mkTensor (sizes o) (scalar_type o) (<[i := v]> (data o)))).

(** [data[i]]: a read outside the buffer is undefined in C++ and yields 0
    here. *)
Definition load (d : list cvalue) (i : nat) : cvalue :=
  default (CInt 0) (d !! i).

(** [for (i ...) body(i)] over the listed indices, in order. *)
Fixpoint for_each {S} (idxs : list nat) (body : nat -> M S unit) : M S unit :=
  match idxs with
  | [] => ret tt
  | i :: rest => do* body i in for_each rest body
  end.

(** ** Dispatch macros *)

(** Modelled from the spec: the [ET_SWITCH_*] macros (spec, section 4.4).
    Each runs its body with [CTYPE] bound to the C type of the tag when the
    tag is in the macro's set, and fails with [UnsupportedType] otherwise.
    Input slots take the real types and boolean; compute and output slots
    take the real types only; a scalar is a [bool], an [int64_t] or a
    [double]. *)
Definition ET_SWITCH_REAL_TYPES {S A} (t : ScalarType)
    (body : ScalarType -> M S A) : M S A :=
  if isRealType t then body t else fun s => Abort UnsupportedType s.

Definition ET_SWITCH_REAL_TYPES_AND_Bool {S A} (t : ScalarType)
    (body : ScalarType -> M S A) : M S A :=
  if isRealType t || bool_decide (t = Bool) then body t
  else fun s => Abort UnsupportedType s.

Definition ET_SWITCH_SCALAR_OBJ_TYPES {S A} (t : ScalarType)
    (body : ScalarType -> M S A) : M S A :=
  match t with
  | Bool | Long | Double => body t
  | _ => fun s => Abort UnsupportedType s
  end.

(** ** Broadcasting *)

(** Modelled from the spec: the shape broadcaster of [broadcast_util.h]
    (spec, section 4.1).  Shapes are right-aligned; missing leading
    dimensions count as extent 1; a pair of extents is compatible when they
    are equal or one of them is 1, and the result is their maximum. *)
Definition broadcast_dim (x y : nat) : option nat :=
  if (x =? y) || (x =? 1) || (y =? 1) then Some (x `max` y) else None.

Definition pad_shape (n : nat) (s : list nat) : list nat :=
  replicate (n - length s) 1 ++ s.

Definition broadcastShape (sa sb : list nat) : option (list nat) :=
  let n := length sa `max` length sb in
  mapM (fun p => broadcast_dim p.1 p.2) (zip (pad_shape n sa) (pad_shape n sb)).

(** The claim's description of a failing pair: at some position counted from
    the trailing end both shapes have an extent, the two differ and neither
    is 1. *)
Definition incompatible_shapes (sa sb : list nat) : Prop :=
  exists k x y,
    reverse sa !! k = Some x /\ reverse sb !! k = Some y /\
    x <> y /\ x <> 1 /\ y <> 1.

(** Modelled from the spec: the index arithmetic of the binary applier
    (spec, section 4.5).  A linear row-major index is split into
    coordinates, trailing dimension first; an operand reads at the same
    coordinates with 0 in every dimension where its extent is 1, and no
    coordinate for dimensions it lacks. *)
Fixpoint delinearize_index (i : nat) (rsizes : list nat) : list nat :=
  match rsizes with
  | [] => []
  | d :: ds => (i `mod` d) :: delinearize_index (i `div` d) ds
  end.

Fixpoint linearize_access_indexes (rcoords rsizes : list nat) : nat :=
  match rcoords, rsizes with
  | c :: cs, d :: ds =>
      (if d =? 1 then 0 else c) + d * linearize_access_indexes cs ds
  | _, _ => 0
  end.

Definition broadcast_index (i : nat) (out_sizes t_sizes : list nat) : nat :=
  linearize_access_indexes
    (delinearize_index i (reverse out_sizes)) (reverse t_sizes).

(** Modelled from the spec: [apply_binary_elementwise_fn] of
    [broadcast_util.h] (spec, section 4.5): every position of [out] in
    row-major order; the element function may abort the call. *)
Definition apply_binary_elementwise_fn {I}
    (compute_fun : cvalue -> cvalue -> M (Operands I) cvalue)
    (a b : Tensor) : M (Operands I) unit :=
  let* o := get_out in
  for_each (seq 0 (numel o)) (fun i =>
    let a_linear_index := broadcast_index i (sizes o) (sizes a) in
    let b_linear_index := broadcast_index i (sizes o) (sizes b) in
    let* v := compute_fun (load (data a) a_linear_index)
                          (load (data b) b_linear_index) in
    store_out i v).

(** Modelled from the spec: [apply_unary_map_fn] of [functional_util.h]
    (spec, section 4.5): [data_out[i] = map_fun(data_in[i])] for
    [i < size], in index order. *)
Definition apply_unary_map_fn {I} (map_fun : cvalue -> cvalue)
    (data_in : list cvalue) (size : nat) : M (Operands I) unit :=
  for_each (seq 0 size) (fun i => store_out i (map_fun (load data_in i))).

(** ** Instances used in the examples *)

(** A cast policy: a floating value is not cast to an integer type, and
    only a boolean is cast to boolean. *)
Definition canCast_sample (from to : ScalarType) : bool :=
  if isFloatingType from && isIntegralType to false then false
  else if negb (bool_decide (from = Bool)) && bool_decide (to = Bool) then false
  else true.

(** An allocator that never fails. *)
Definition resize_always (_ : Tensor) (_ : list nat) : bool := true.

Definition f32 (m e : Z) : cvalue := CFloat (binary_normalize 24 128 m e false).

Definition int_tensor (s : list nat) (l : list Z) : Tensor :=
  mkTensor s Int (CInt <$> l).
Definition bool_tensor (s : list nat) (l : list bool) : Tensor :=
  mkTensor s Bool ((fun v : bool => CInt (if v then 1 else 0)%Z) <$> l).
Definition float_tensor (s : list nat) (l : list cvalue) : Tensor :=
  mkTensor s Float l.

(** [a = [5, 7]], [b = [2, 0]], [out = [9, 9]], all [int]. *)
Definition ex_zero_second : Operands (Tensor * Tensor) :=
  mkOperands (int_tensor [2] [5; 7]%Z, int_tensor [2] [2; 0]%Z)
             (int_tensor [2] [9; 9]%Z).

(** [a = [5, 7]] of [int] and the boolean [b = [true, false]]. *)
Definition ex_bool_divisor : Operands (Tensor * Tensor) :=
  mkOperands (int_tensor [2] [5; 7]%Z, bool_tensor [2] [true; false])
             (int_tensor [2] [9; 9]%Z).

(** [a = [5, 7]] of [int], the scalar 0, and an [out] of another shape. *)
Definition ex_scalar_zero : Operands (Tensor * Scalar) :=
  mkOperands (int_tensor [2] [5; 7]%Z, ScalarInt 0) (int_tensor [1] [9]%Z).
Definition ex_scalar_zero_resized : Operands (Tensor * Scalar) :=
  mkOperands (int_tensor [2] [5; 7]%Z, ScalarInt 0)
             (int_tensor [2] [9; 0]%Z).

(** [a = [5.5]], [b = [0.0]], both [float]. *)
Definition ex_float_zero : Operands (Tensor * Tensor) :=
  mkOperands (float_tensor [1] [f32 11 (-1)],
              float_tensor [1] [CFloat (S754_zero false)])
             (float_tensor [1] [f32 1 0]).
Definition ex_float_scalar_zero : Operands (Tensor * Scalar) :=
  mkOperands (float_tensor [1] [f32 11 (-1)], ScalarDouble (S754_zero false))
             (float_tensor [1] [f32 1 0]).

(** Shapes [3, 4] and [3, 5]. *)
Definition ex_mismatch : Operands (Tensor * Tensor) :=
  mkOperands (int_tensor [3; 4] (replicate 12 7%Z),
              int_tensor [3; 5] (replicate 15 2%Z))
             (int_tensor [3; 4] (replicate 12 0%Z)).

(** [float] inputs of shape [2] and an [int] output of shape [1]: the cast
    is refused by [canCast_sample], after the resize. *)
Definition ex_bad_cast : Operands (Tensor * Tensor) :=
  mkOperands (float_tensor [2] [f32 11 (-1); f32 3 0],
              float_tensor [2] [f32 2 0; f32 2 0])
             (int_tensor [1] [9]%Z).
Definition ex_bad_cast_resized : Operands (Tensor * Tensor) :=
  mkOperands (float_tensor [2] [f32 11 (-1); f32 3 0],
              float_tensor [2] [f32 2 0; f32 2 0])
             (int_tensor [2] [9; 0]%Z).
Definition ex_bad_cast_scalar : Operands (Tensor * Scalar) :=
  mkOperands (float_tensor [2] [f32 11 (-1); f32 3 0], ScalarInt 2)
             (int_tensor [1] [9]%Z).
Definition ex_bad_cast_scalar_resized : Operands (Tensor * Scalar) :=
  mkOperands (float_tensor [2] [f32 11 (-1); f32 3 0], ScalarInt 2)
             (int_tensor [2] [9; 0]%Z).

(** Boolean inputs and a boolean output. *)
Definition ex_all_bool : Operands (Tensor * Tensor) :=
  mkOperands (bool_tensor [1] [true], bool_tensor [1] [true])
             (bool_tensor [1] [false]).

(** Two calls on [a = [5, 7, -3]], [b = [2, 2, 2]] whose outputs hold
    different values, and the state both return. *)
Definition ex_run1 : Operands (Tensor * Tensor) :=
  mkOperands (int_tensor [3] [5; 7; -3]%Z, int_tensor [3] [2; 2; 2]%Z)
             (int_tensor [3] [0; 0; 0]%Z).
Definition ex_run2 : Operands (Tensor * Tensor) :=
  mkOperands (int_tensor [3] [5; 7; -3]%Z, int_tensor [3] [2; 2; 2]%Z)
             (int_tensor [3] [41; 42; 43]%Z).
Definition ex_run_result : Operands (Tensor * Tensor) :=
  mkOperands (int_tensor [3] [5; 7; -3]%Z, int_tensor [3] [2; 2; 2]%Z)
             (int_tensor [3] [1; 1; -1]%Z).
Definition ex_srun1 : Operands (Tensor * Scalar) :=
  mkOperands (int_tensor [3] [5; 7; -3]%Z, ScalarInt 2)
             (int_tensor [3] [0; 0; 0]%Z).
Definition ex_srun2 : Operands (Tensor * Scalar) :=
  mkOperands (int_tensor [3] [5; 7; -3]%Z, ScalarInt 2)
             (int_tensor [3] [41; 42; 43]%Z).
Definition ex_srun_result : Operands (Tensor * Scalar) :=
  mkOperands (int_tensor [3] [5; 7; -3]%Z, ScalarInt 2)
             (int_tensor [3] [1; 1; -1]%Z).

(** ** The kernels *)

Section Kernels.

(** The cast-compatibility oracle of the platform (spec, section 6). *)
Variable canCast : ScalarType -> ScalarType -> bool.

(** Whether the platform can give a tensor a new shape (spec, section 6:
    the resize primitive may fail with an allocation error). *)
Variable resize_ok : Tensor -> list nat -> bool.

(** Modelled from the spec: [resize_tensor(out, new_sizes)] (spec,
    sections 4.1 and 6).  A tensor that already has the shape is left
    alone; otherwise its buffer is reallocated to the new element count
    under the same type tag.  What a reallocated buffer holds is not
    specified: the old prefix, padded with zeros, stands for it. *)
Definition resize_tensor {I} (new_sizes : list nat) : M (Operands I) Error.t :=
  fun s =>
    let o := out s in
    if decide (sizes o = new_sizes) then Ok Error.Ok s
    else if resize_ok o new_sizes then
      Ok Error.Ok
         (mkOperands (ins s)
            (mkTensor new_sizes (scalar_type o)
               (resize (shape_numel new_sizes) (CInt 0) (data o))))
    else Ok Error.MemoryAllocationFailed s.

(** Modelled from the spec: [resize_to_broadcast_target_size(a, b, out)]
    of [broadcast_util.h] (spec, section 4.1). *)
Definition resize_to_broadcast_target_size {I} (a b : Tensor)
    : M (Operands I) unit :=
  match broadcastShape (sizes a) (sizes b) with
  | None => fun s => Abort ShapeMismatch s
  | Some target =>
      let* err := resize_tensor target in
      ET_CHECK AllocError (bool_decide (err = Error.Ok))
  end.

(** [fmod_Tensor_out(ctx, a, b, out)], lines 22-74. *)
Definition fmod_Tensor_out : M (Operands (Tensor * Tensor)) unit :=
  fun s =>
    let a := (ins s).1 in
    let b := (ins s).2 in
    (do* resize_to_broadcast_target_size a b in
     let a_type := scalar_type a in
     let b_type := scalar_type b in
     let common_type := promoteTypes a_type b_type in
     let* o := get_out in
     let out_type := scalar_type o in
     do* ET_CHECK CastNotAllowed (canCast common_type out_type) in
     ET_SWITCH_REAL_TYPES_AND_Bool a_type (fun CTYPE_A =>
     ET_SWITCH_REAL_TYPES_AND_Bool b_type (fun CTYPE_B =>
     ET_SWITCH_REAL_TYPES common_type (fun CTYPE_IN =>
     ET_SWITCH_REAL_TYPES out_type (fun CTYPE_OUT =>
       apply_binary_elementwise_fn
         (fun val_a val_b =>
            do* (if isIntegralType common_type true
                 then ET_CHECK DomainViolation (negb (is_zero val_b))
                 else ret tt) in
            let a_casted := static_cast CTYPE_IN val_a in
            let b_casted := static_cast CTYPE_IN val_b in
            let value := std_fmod CTYPE_IN a_casted b_casted in
            ret (static_cast CTYPE_OUT value))
         a b))))) s.

(** [fmod_Scalar_out(ctx, a, b, out)], lines 76-125. *)
Definition fmod_Scalar_out : M (Operands (Tensor * Scalar)) unit :=
  fun s =>
    let a := (ins s).1 in
    let b := (ins s).2 in
    (let* err := resize_tensor (sizes a) in
     do* ET_CHECK AllocError (bool_decide (err = Error.Ok)) in
     let a_type := scalar_type a in
     let b_type := get_scalar_dtype b in
     let common_type := promote_type_with_scalar a_type b in
     let* o := get_out in
     let out_type := scalar_type o in
     do* ET_CHECK CastNotAllowed (canCast common_type out_type) in
     ET_SWITCH_REAL_TYPES_AND_Bool a_type (fun CTYPE_A =>
     ET_SWITCH_SCALAR_OBJ_TYPES b_type (fun CTYPE_B =>
       let val_b := extract_scalar b CTYPE_B in
       ET_SWITCH_REAL_TYPES common_type (fun CTYPE_IN =>
         do* (if isIntegralType common_type true
              then ET_CHECK DomainViolation (negb (is_zero val_b))
              else ret tt) in
         ET_SWITCH_REAL_TYPES out_type (fun CTYPE_OUT =>
           let* o' := get_out in
           apply_unary_map_fn
             (fun val_a =>
                let a_casted := static_cast CTYPE_IN val_a in
                let b_casted := static_cast CTYPE_IN val_b in
                let value := std_fmod CTYPE_IN a_casted b_casted in
                static_cast CTYPE_OUT value)
             (data a) (numel o')))))) s.

End Kernels.

(** ** The loops as pure functions *)

(** What the element function of both kernels returns when it returns:
    operands cast to the compute type, [std::fmod] there, result cast to
    the output type. *)
Definition fmod_value (common_type out_type : ScalarType)
    (val_a val_b : cvalue) : cvalue :=
  static_cast out_type
    (std_fmod common_type (static_cast common_type val_a)
                          (static_cast common_type val_b)).

(** The element function of [fmod_Tensor_out]; [None] is the failed
    [ET_CHECK(val_b != 0)]. *)
Definition fmod_elem (common_type out_type : ScalarType)
    (val_a val_b : cvalue) : option cvalue :=
  if isIntegralType common_type true && is_zero val_b then None
  else Some (fmod_value common_type out_type val_a val_b).

(** The operands of output position [i] under broadcasting. *)
Definition operand_a (a : Tensor) (out_sizes : list nat) (i : nat) : cvalue :=
  load (data a) (broadcast_index i out_sizes (sizes a)).
Definition operand_b (b : Tensor) (out_sizes : list nat) (i : nat) : cvalue :=
  load (data b) (broadcast_index i out_sizes (sizes b)).

(** The state with the buffer of [out] replaced. *)
Definition with_data {I} (s : Operands I) (d : list cvalue) : Operands I :=
  mkOperands (ins s) (mkTensor (sizes (out s)) (scalar_type (out s)) d).

(** A loop of stores on a buffer: [g i] is the value for position [i], or
    [None] when computing it aborts.  Returns whether the loop ran to its
    end, and the buffer it left. *)
Fixpoint run_writes (g : nat -> option cvalue) (idxs : list nat)
    (d : list cvalue) : bool * list cvalue :=
  match idxs with
  | [] => (true, d)
  | i :: rest =>
      match g i with
      | None => (false, d)
      | Some v => run_writes g rest (<[i := v]> d)
      end
  end.

(** Two output tensors configured alike: same shape, same type tag, buffers
    of the right length, and the platform resizes the one when it resizes
    the other. *)
Definition same_config (resize_ok : Tensor -> list nat -> bool)
    (o1 o2 : Tensor) : Prop :=
  sizes o1 = sizes o2 /\ scalar_type o1 = scalar_type o2 /\
  wf_tensor o1 /\ wf_tensor o2 /\
  forall s, resize_ok o1 s = resize_ok o2 s.

(** ** Typed integer buffers *)

(** The values of each integer C type (and of [bool], as 0 and 1). *)
Definition in_range (T : ScalarType) (z : Z) : bool :=
  match T with
  | Byte => (0 <=? z)%Z && (z <? 2 ^ 8)%Z
  | Char => (- 2 ^ 7 <=? z)%Z && (z <? 2 ^ 7)%Z
  | Short => (- 2 ^ 15 <=? z)%Z && (z <? 2 ^ 15)%Z
  | Int => (- 2 ^ 31 <=? z)%Z && (z <? 2 ^ 31)%Z
  | Long => (- 2 ^ 63 <=? z)%Z && (z <? 2 ^ 63)%Z
  | Bool => (0 <=? z)%Z && (z <? 2)%Z
  | Float | Double => false
  end.

(** An integer value of type [T]. *)
Definition int_valued (T : ScalarType) (v : cvalue) : Prop :=
  exists z, v = CInt z /\ in_range T z = true.

(** A tensor of an integer type whose buffer holds values of that type. *)
Definition well_typed (t : Tensor) : Prop :=
  Forall (int_valued (scalar_type t)) (data t).

(** The 0-dimensional tensor that holds what [ET_EXTRACT_SCALAR] reads from
    a scalar, under the scalar's own tag. *)
Definition scalar_as_tensor (b : Scalar) : Tensor :=
  mkTensor [] (get_scalar_dtype b)
           [extract_scalar b (get_scalar_dtype b)].

(** Empty tensors, and a zero scalar on an empty tensor. *)
Definition ex_empty : Operands (Tensor * Tensor) :=
  mkOperands (int_tensor [0] [], int_tensor [0] []) (int_tensor [0] []).
Definition ex_empty_scalar : Operands (Tensor * Scalar) :=
  mkOperands (int_tensor [0] [], ScalarInt 0) (int_tensor [0] []).

(** ** Theorems *)

(** *** Stores and loops *)

Lemma with_data_id {I} (s : Operands I) : with_data s (data (out s)) = s.
Proof. destruct s as [i [sz ty d]]. reflexivity. Qed.

Lemma run_writes_app g l1 l2 d :
  run_writes g (l1 ++ l2) d =
    if (run_writes g l1 d).1 then run_writes g l2 (run_writes g l1 d).2
    else (false, (run_writes g l1 d).2).
Proof.
  revert d. induction l1 as [|i l1 IH]; intros d; simpl; [reflexivity|].
  destruct (g i); [apply IH | reflexivity].
Qed.

Lemma run_writes_length g idxs d :
  length (run_writes g idxs d).2 = length d.
Proof.
  revert d. induction idxs as [|i idxs IH]; intros d; simpl; [reflexivity|].
  destruct (g i); simpl; [|reflexivity].
  rewrite IH. apply length_insert.
Qed.

(** The loop runs to its end exactly when no position aborts. *)
Lemma run_writes_completes g idxs d :
  (run_writes g idxs d).1 = true <-> Forall (fun i => is_Some (g i)) idxs.
Proof.
  revert d. induction idxs as [|i idxs IH]; intros d; simpl.
  - split; [constructor | reflexivity].
  - destruct (g i) as [v|] eqn:E; simpl.
    + rewrite IH. split.
      * intros H. constructor; [rewrite E; eauto | exact H].
      * intros H. inversion H; assumption.
    + split; [discriminate|].
      intros H. inversion H as [|? ? [v Hv] ?]; subst. congruence.
Qed.

(** A full pass over the first [k] positions overwrites exactly them. *)
Lemma run_writes_prefix g k d :
  k <= length d ->
  Forall (fun i => is_Some (g i)) (seq 0 k) ->
  run_writes g (seq 0 k) d =
    (true, ((fun i => default (CInt 0) (g i)) <$> seq 0 k) ++ drop k d).
Proof.
  induction k as [|k IH]; intros Hk Hok.
  - simpl. rewrite drop_0. reflexivity.
  - rewrite seq_S in Hok |- *. simpl in Hok |- *.
    apply Forall_app in Hok as [Hok Hlast].
    rewrite run_writes_app, IH by (lia || assumption). simpl.
    inversion Hlast as [|? ? [v Hv] _]; subst. rewrite Hv.
    rewrite fmap_app. simpl. rewrite Hv. simpl.
    f_equal.
    assert (Hlen : length ((fun i => default (CInt 0) (g i)) <$> seq 0 k) = k)
      by (rewrite length_fmap, length_seq; reflexivity).
    rewrite <- (Nat.add_0_r k) at 1.
    rewrite <- Hlen at 1. rewrite insert_app_r.
    rewrite <- app_assoc. f_equal.
    destruct (drop k d) as [|x rest] eqn:E.
    + apply (f_equal length) in E. rewrite length_drop in E. simpl in E. lia.
    + simpl. f_equal.
      change rest with (drop 1 (x :: rest)). rewrite <- E, drop_drop.
      f_equal. lia.
Qed.

(** The loop stops at the first position that aborts; the positions before
    it are written, the others are not. *)
Lemma run_writes_first_abort g k n d :
  k < n -> n <= length d ->
  Forall (fun i => is_Some (g i)) (seq 0 k) ->
  g k = None ->
  run_writes g (seq 0 n) d =
    (false, ((fun i => default (CInt 0) (g i)) <$> seq 0 k) ++ drop k d).
Proof.
  intros Hk Hn Hok Hfail.
  replace n with (k + (1 + (n - S k))) by lia.
  rewrite seq_app, run_writes_app, run_writes_prefix by (lia || assumption).
  simpl. rewrite Hfail. reflexivity.
Qed.

Lemma run_writes_some_abort g idxs d :
  Exists (fun i => g i = None) idxs -> (run_writes g idxs d).1 = false.
Proof.
  intros Hex. destruct (run_writes g idxs d).1 eqn:E; [|reflexivity].
  apply run_writes_completes in E.
  apply Exists_exists in Hex as (i & Hin & Hi).
  rewrite Forall_forall in E. destruct (E i Hin) as [v Hv]. congruence.
Qed.

(** [for_each] over stores is [run_writes] on the buffer of [out]. *)
Lemma for_each_run_writes {I} (body : nat -> M (Operands I) unit) g idxs :
  (forall i s, body i s =
     match g i with
     | Some v => store_out i v s
     | None => Abort DomainViolation s
     end) ->
  forall s,
    for_each idxs body s =
      let r := run_writes g idxs (data (out s)) in
      if r.1 then Ok tt (with_data s r.2)
      else Abort DomainViolation (with_data s r.2).
Proof.
  intros Hbody. induction idxs as [|i idxs IH]; intros s; simpl.
  - unfold ret. rewrite with_data_id. reflexivity.
  - unfold bind at 1. rewrite Hbody. destruct (g i) as [v|]; simpl.
    + rewrite IH. simpl. reflexivity.
    + rewrite with_data_id. reflexivity.
Qed.


(** A loop whose element function cannot abort runs to its end. *)
Lemma for_each_stores {I} (f : nat -> cvalue) idxs (s : Operands I) :
  for_each idxs (fun i => store_out i (f i)) s =
  Ok tt (with_data s
           (run_writes (fun i => Some (f i)) idxs (data (out s))).2).
Proof.
  rewrite (for_each_run_writes _ (fun i => Some (f i))) by reflexivity.
  cbv zeta.
  rewrite (proj2 (run_writes_completes _ idxs (data (out s)))); [reflexivity|].
  apply Forall_forall. eauto.
Qed.

(** *** Type tags *)

Lemma real_or_bool (t : ScalarType) :
  isRealType t || bool_decide (t = Bool) = true.
Proof. destruct t; reflexivity. Qed.

Lemma floating_not_integral (t : ScalarType) :
  isFloatingType t = true -> isIntegralType t true = false.
Proof. destruct t; simpl; congruence. Qed.

Lemma floating_real (t : ScalarType) :
  isFloatingType t = true -> isRealType t = true.
Proof. destruct t; simpl; congruence. Qed.

Lemma scalar_obj_switch {S A} (b : Scalar) (body : ScalarType -> M S A) :
  ET_SWITCH_SCALAR_OBJ_TYPES (get_scalar_dtype b) body =
  body (get_scalar_dtype b).
Proof. destruct b; reflexivity. Qed.

(** *** Zero divisors in floating point *)

Lemma is_zero_inv v :
  is_zero v = true -> v = CInt 0 \/ exists s, v = CFloat (S754_zero s).
Proof.
  destruct v as [z|f]; simpl.
  - intros H. apply Z.eqb_eq in H. subst. auto.
  - destruct f as [s|s| |s m e]; unfold SFeqb; simpl; try discriminate.
    + eauto.
    + destruct s; discriminate.
    + destruct s; discriminate.
Qed.

(** A zero stays a zero when it is cast to a floating type. *)
Lemma static_cast_zero T v :
  isFloatingType T = true -> is_zero v = true ->
  exists s, static_cast T v = CFloat (S754_zero s).
Proof.
  intros HT Hz. apply is_zero_inv in Hz as [-> | [s ->]];
    destruct T; try discriminate; simpl; eauto.
Qed.

Lemma SFfmod_zero_divisor prec emax x s :
  SFfmod prec emax x (S754_zero s) = S754_nan.
Proof. destruct x; reflexivity. Qed.

(** [std::fmod(x, 0.0)] is a NaN for every [x]. *)
Lemma std_fmod_zero_divisor T a s :
  isFloatingType T = true ->
  std_fmod T a (CFloat (S754_zero s)) = CFloat S754_nan.
Proof.
  intros HT. destruct T; try discriminate; simpl;
    rewrite SFfmod_zero_divisor; reflexivity.
Qed.

Lemma fmod_value_zero_divisor common_type out_type va vb :
  isFloatingType common_type = true -> is_zero vb = true ->
  fmod_value common_type out_type va vb
    = static_cast out_type (CFloat S754_nan).
Proof.
  intros HT Hz. unfold fmod_value.
  destruct (static_cast_zero _ _ HT Hz) as [s ->].
  rewrite std_fmod_zero_divisor by exact HT. reflexivity.
Qed.

Lemma static_cast_nan T :
  isFloatingType T = true ->
  static_cast T (CFloat S754_nan) = CFloat S754_nan.
Proof. destruct T; try discriminate; reflexivity. Qed.

Lemma fmod_elem_floating common_type out_type va vb :
  isFloatingType common_type = true ->
  fmod_elem common_type out_type va vb
    = Some (fmod_value common_type out_type va vb).
Proof.
  intros HT. unfold fmod_elem.
  rewrite floating_not_integral by exact HT. reflexivity.
Qed.

(** *** Broadcasting *)

Lemma broadcast_dim_None x y :
  broadcast_dim x y = None <-> x <> y /\ x <> 1 /\ y <> 1.
Proof.
  unfold broadcast_dim.
  destruct (Nat.eqb_spec x y), (Nat.eqb_spec x 1), (Nat.eqb_spec y 1); simpl;
    split; try discriminate; try tauto; intuition congruence.
Qed.

(** A padded shape, read from its end, is the shape read from its end. *)
Lemma pad_shape_lookup n s j x :
  length s <= n -> x <> 1 ->
  pad_shape n s !! j = Some x <->
  j < n /\ reverse s !! (n - S j) = Some x.
Proof.
  intros Hn Hx. unfold pad_shape.
  destruct (decide (j < n - length s)) as [Hj|Hj].
  - rewrite lookup_app_l by (rewrite length_replicate; exact Hj).
    rewrite lookup_replicate_2 by exact Hj. split.
    + intros [= <-]. congruence.
    + intros [_ H]. apply lookup_lt_Some in H.
      rewrite length_reverse in H. lia.
  - rewrite lookup_app_r by (rewrite length_replicate; lia).
    rewrite length_replicate. split.
    + intros H. pose proof (lookup_lt_Some _ _ _ H) as Hlt.
      split; [lia|]. rewrite reverse_lookup by lia.
      rewrite <- H. f_equal. lia.
    + intros [Hlt H]. pose proof (lookup_lt_Some _ _ _ H) as Hk.
      rewrite length_reverse in Hk.
      rewrite reverse_lookup in H by lia.
      rewrite <- H. f_equal. lia.
Qed.

(** The broadcaster fails exactly on the pairs of shapes the claim
    describes. *)
Lemma broadcastShape_None sa sb :
  broadcastShape sa sb = None <-> incompatible_shapes sa sb.
Proof.
  unfold broadcastShape, incompatible_shapes.
  set (n := length sa `max` length sb).
  assert (Ha : length sa <= n) by lia.
  assert (Hb : length sb <= n) by lia.
  rewrite mapM_None, Exists_exists. split.
  - intros ([x y] & Hin & Hnone). simpl in Hnone.
    apply broadcast_dim_None in Hnone as (Hxy & Hx & Hy).
    apply list_elem_of_lookup in Hin as [j Hj].
    apply lookup_zip_with_Some in Hj as (x' & y' & [= <- <-] & Hja & Hjb).
    apply pad_shape_lookup in Hja as [Hlt Hja]; [|exact Ha|exact Hx].
    apply pad_shape_lookup in Hjb as [_ Hjb]; [|exact Hb|exact Hy].
    eauto 10.
  - intros (k & x & y & Hka & Hkb & Hxy & Hx & Hy).
    exists (x, y). split; [|apply broadcast_dim_None; auto].
    pose proof (lookup_lt_Some _ _ _ Hka) as Hlt.
    rewrite length_reverse in Hlt.
    apply (list_elem_of_lookup_2 _ (n - S k)).
    apply lookup_zip_with_Some. exists x, y. split; [reflexivity|].
    split; apply pad_shape_lookup; try assumption;
      (split; [lia|]); (replace (n - S (n - S k)) with k by lia); assumption.
Qed.

Lemma promoteTypes_comm x y : promoteTypes x y = promoteTypes y x.
Proof. destruct x, y; reflexivity. Qed.

Lemma promoteTypes_diag x : promoteTypes x x = x.
Proof. destruct x; reflexivity. Qed.

(** C6: [promoteTypes] is total over the type tags (every pair has a
    result), commutative, and returns [T] on [(T, T)]. *)
Theorem promoteTypes_total_comm_idem :
  forall x y : ScalarType,
    (exists t, promoteTypes x y = t) /\
    promoteTypes x y = promoteTypes y x /\
    promoteTypes x x = x.
Proof.
  intros x y. split; [eexists; reflexivity|].
  split; [apply promoteTypes_comm | apply promoteTypes_diag].
Qed.

(** *** The kernels, step by step *)

Section Properties.

Variable canCast : ScalarType -> ScalarType -> bool.
Variable resize_ok : Tensor -> list nat -> bool.

Lemma resize_tensor_total {I} new_sizes (s : Operands I) :
  exists err s', resize_tensor resize_ok new_sizes s = Ok err s' /\
                 (err <> Error.Ok -> s' = s).
Proof.
  unfold resize_tensor. destruct (decide _).
  - eexists _, _. split; [reflexivity | congruence].
  - destruct (resize_ok _ _); eexists _, _; (split; [reflexivity|]);
      congruence.
Qed.

Lemma resize_tensor_ok {I} new_sizes (s s' : Operands I) :
  resize_tensor resize_ok new_sizes s = Ok Error.Ok s' ->
  ins s' = ins s /\
  scalar_type (out s') = scalar_type (out s) /\
  sizes (out s') = new_sizes /\
  length (data (out s')) =
    (if decide (sizes (out s) = new_sizes) then length (data (out s))
     else shape_numel new_sizes) /\
  (sizes (out s) = new_sizes -> s' = s).
Proof.
  unfold resize_tensor. destruct (decide _) as [E|E].
  - intros [= <-]. auto.
  - destruct (resize_ok _ _); intros [= <-]; simpl.
    rewrite length_resize. repeat split; congruence.
Qed.

Lemma resize_tensor_wf {I} new_sizes (s s' : Operands I) :
  resize_tensor resize_ok new_sizes s = Ok Error.Ok s' ->
  wf_tensor (out s) -> wf_tensor (out s').
Proof.
  intros H Hwf. apply resize_tensor_ok in H as (_ & _ & Hs & Hl & _).
  unfold wf_tensor, numel in *. rewrite Hl, Hs.
  destruct (decide _) as [E|E]; [rewrite <- E; exact Hwf | reflexivity].
Qed.

(** The resize step of [fmod_Tensor_out] succeeds exactly when the shapes
    broadcast and the resize returns [Error::Ok]. *)
Lemma resize_to_broadcast_ok {I} a b (s s' : Operands I) :
  resize_to_broadcast_target_size resize_ok a b s = Ok tt s' <->
  exists target,
    broadcastShape (sizes a) (sizes b) = Some target /\
    resize_tensor resize_ok target s = Ok Error.Ok s'.
Proof.
  unfold resize_to_broadcast_target_size.
  destruct (broadcastShape _ _) as [target|]; split.
  - unfold bind, ET_CHECK.
    destruct (resize_tensor_total target s) as (err & s1 & E & _).
    rewrite E. destruct err; simpl; [|discriminate].
    intros [= <-]. eauto.
  - intros (t & [= <-] & H). unfold bind. rewrite H. reflexivity.
  - discriminate.
  - intros (t & H & _). discriminate.
Qed.

(** [fmod_Tensor_out] in one piece: the checks in the order of the source,
    then the loop as [run_writes]. *)
Lemma fmod_Tensor_out_run (m : Operands (Tensor * Tensor)) :
  fmod_Tensor_out canCast resize_ok m =
  let a := (ins m).1 in
  let b := (ins m).2 in
  match resize_to_broadcast_target_size resize_ok a b m with
  | Abort k s => Abort k s
  | Ok _ m' =>
      let common_type := promoteTypes (scalar_type a) (scalar_type b) in
      let out_type := scalar_type (out m') in
      if canCast common_type out_type then
        if isRealType common_type && isRealType out_type then
          let r :=
            run_writes
              (fun i => fmod_elem common_type out_type
                          (operand_a a (sizes (out m')) i)
                          (operand_b b (sizes (out m')) i))
              (seq 0 (numel (out m'))) (data (out m')) in
          if r.1 then Ok tt (with_data m' r.2)
          else Abort DomainViolation (with_data m' r.2)
        else Abort UnsupportedType m'
      else Abort CastNotAllowed m'
  end.
Proof.
  unfold fmod_Tensor_out. cbv zeta. unfold bind at 1.
  destruct (resize_to_broadcast_target_size _ _ _ _) as [[] m'|k s];
    [|reflexivity].
  unfold bind at 1. unfold get_out at 1. unfold bind at 1.
  unfold ET_CHECK at 1.
  destruct (canCast _ _); [|reflexivity].
  unfold ET_SWITCH_REAL_TYPES_AND_Bool. rewrite !real_or_bool.
  unfold ET_SWITCH_REAL_TYPES.
  destruct (isRealType (promoteTypes _ _)); [|reflexivity].
  destruct (isRealType (scalar_type (out m'))); [|reflexivity].
  simpl andb. cbv iota.
  unfold apply_binary_elementwise_fn, bind at 1, get_out at 1.
  apply for_each_run_writes. intros i s.
  unfold bind, fmod_elem, operand_a, operand_b, ET_CHECK, ret.
  destruct (isIntegralType _ true); simpl; [|reflexivity].
  destruct (is_zero _); reflexivity.
Qed.

(** [fmod_Scalar_out] in one piece. *)
Lemma fmod_Scalar_out_run (m : Operands (Tensor * Scalar)) :
  fmod_Scalar_out canCast resize_ok m =
  let a := (ins m).1 in
  let b := (ins m).2 in
  match resize_tensor resize_ok (sizes a) m with
  | Abort k s => Abort k s
  | Ok Error.MemoryAllocationFailed s => Abort AllocError s
  | Ok Error.Ok m' =>
      let common_type := promote_type_with_scalar (scalar_type a) b in
      let out_type := scalar_type (out m') in
      let val_b := extract_scalar b (get_scalar_dtype b) in
      if canCast common_type out_type then
        if isRealType common_type then
          if isIntegralType common_type true && is_zero val_b
          then Abort DomainViolation m'
          else if isRealType out_type then
            Ok tt (with_data m'
              (run_writes
                 (fun i => Some (fmod_value common_type out_type
                                   (load (data a) i) val_b))
                 (seq 0 (numel (out m'))) (data (out m'))).2)
          else Abort UnsupportedType m'
        else Abort UnsupportedType m'
      else Abort CastNotAllowed m'
  end.
Proof.
  unfold fmod_Scalar_out. cbv zeta. unfold bind at 1.
  destruct (resize_tensor _ _ _) as [[] m'|k s]; [| |reflexivity].
  2: reflexivity.
  unfold ET_CHECK at 1. simpl bool_decide. cbv iota.
  unfold bind at 1. unfold get_out at 1. unfold bind at 1.
  unfold ET_CHECK at 1.
  destruct (canCast _ _); [|reflexivity].
  unfold ET_SWITCH_REAL_TYPES_AND_Bool. rewrite real_or_bool.
  rewrite scalar_obj_switch.
  unfold ET_SWITCH_REAL_TYPES at 1.
  destruct (isRealType (promote_type_with_scalar _ _)); [|reflexivity].
  unfold bind at 1.
  destruct (isIntegralType _ true); simpl andb.
  - unfold ET_CHECK at 1. destruct (is_zero _); simpl; [reflexivity|].
    unfold ET_SWITCH_REAL_TYPES.
    destruct (isRealType (scalar_type (out m'))); [|reflexivity].
    unfold bind, get_out, apply_unary_map_fn.
    apply (for_each_stores (fun i => fmod_value _ _ (load _ i) _)).
  - unfold ret at 1. unfold ET_SWITCH_REAL_TYPES.
    destruct (isRealType (scalar_type (out m'))); [|reflexivity].
    unfold bind, get_out, apply_unary_map_fn.
    apply (for_each_stores (fun i => fmod_value _ _ (load _ i) _)).
Qed.

Lemma resize_to_broadcast_facts {I} a b (s s' : Operands I) :
  resize_to_broadcast_target_size resize_ok a b s = Ok tt s' ->
  ins s' = ins s /\
  scalar_type (out s') = scalar_type (out s) /\
  broadcastShape (sizes a) (sizes b) = Some (sizes (out s')) /\
  (sizes (out s') = sizes (out s) -> s' = s) /\
  (wf_tensor (out s) -> wf_tensor (out s')).
Proof.
  intros H. apply resize_to_broadcast_ok in H as (target & Hb & Hr).
  pose proof (resize_tensor_wf _ _ _ Hr) as Hwf.
  apply resize_tensor_ok in Hr as (Hi & Ht & Hs & _ & Hid).
  rewrite Hs. repeat split; try assumption.
  intros E. apply Hid. congruence.
Qed.

(** What a run that returns went through. *)
Lemma fmod_Tensor_out_Ok (m r : Operands (Tensor * Tensor)) :
  fmod_Tensor_out canCast resize_ok m = Ok tt r ->
  exists m',
    let a := (ins m).1 in
    let b := (ins m).2 in
    let common_type := promoteTypes (scalar_type a) (scalar_type b) in
    let out_type := scalar_type (out m') in
    let g := fun i => fmod_elem common_type out_type
                        (operand_a a (sizes (out m')) i)
                        (operand_b b (sizes (out m')) i) in
    resize_to_broadcast_target_size resize_ok a b m = Ok tt m' /\
    canCast common_type out_type = true /\
    isRealType common_type && isRealType out_type = true /\
    Forall (fun i => is_Some (g i)) (seq 0 (numel (out m'))) /\
    r = with_data m'
          (run_writes g (seq 0 (numel (out m'))) (data (out m'))).2.
Proof.
  rewrite fmod_Tensor_out_run. cbv zeta.
  destruct (resize_to_broadcast_target_size _ _ _ _) as [[] m'|];
    [|discriminate].
  destruct (canCast _ _) eqn:Hc; [|discriminate].
  destruct (_ && _) eqn:Hreal; [|discriminate].
  destruct (run_writes _ _ _).1 eqn:E; [|discriminate].
  intros [= <-]. exists m'. cbv zeta.
  apply run_writes_completes in E. auto.
Qed.

Lemma fmod_Scalar_out_Ok (m r : Operands (Tensor * Scalar)) :
  fmod_Scalar_out canCast resize_ok m = Ok tt r ->
  exists m',
    let a := (ins m).1 in
    let b := (ins m).2 in
    let common_type := promote_type_with_scalar (scalar_type a) b in
    let out_type := scalar_type (out m') in
    let val_b := extract_scalar b (get_scalar_dtype b) in
    resize_tensor resize_ok (sizes a) m = Ok Error.Ok m' /\
    canCast common_type out_type = true /\
    isRealType common_type = true /\
    isIntegralType common_type true && is_zero val_b = false /\
    isRealType out_type = true /\
    r = with_data m'
          (run_writes
             (fun i => Some (fmod_value common_type out_type
                               (load (data a) i) val_b))
             (seq 0 (numel (out m'))) (data (out m'))).2.
Proof.
  rewrite fmod_Scalar_out_run. cbv zeta.
  destruct (resize_tensor _ _ _) as [[] m'|]; [|discriminate..].
  destruct (canCast _ _) eqn:Hc; [|discriminate].
  destruct (isRealType (promote_type_with_scalar _ _)) eqn:Hrc;
    [|discriminate].
  destruct (_ && _) eqn:Hz; [discriminate|].
  destruct (isRealType (scalar_type _)) eqn:Hro; [|discriminate].
  intros [= <-]. exists m'. cbv zeta. auto 10.
Qed.

(** What the resize step leaves when it fails: the state it started in. *)
Lemma resize_to_broadcast_abort {I} a b (s s' : Operands I) k :
  resize_to_broadcast_target_size resize_ok a b s = Abort k s' ->
  s' = s /\ (k = ShapeMismatch \/ k = AllocError).
Proof.
  unfold resize_to_broadcast_target_size.
  destruct (broadcastShape _ _) as [target|].
  - unfold bind, ET_CHECK.
    destruct (resize_tensor_total target s) as (err & s1 & E & Hs).
    rewrite E. destruct err; simpl; [discriminate|].
    intros [= <- <-]. split; [apply Hs; discriminate | auto].
  - intros [= <- <-]. auto.
Qed.

(** *** The claims *)

(** C5: when the shapes of [a] and [b] do not broadcast (some pair of
    extents, aligned from the trailing end, differs with neither extent
    1), [fmod_Tensor_out] fails with ShapeMismatch, and the state at the
    failure is the state of the call: [out] keeps its shape and its
    buffer. *)
Theorem fmod_Tensor_out_shape_mismatch (m : Operands (Tensor * Tensor)) :
  incompatible_shapes (sizes (ins m).1) (sizes (ins m).2) ->
  fmod_Tensor_out canCast resize_ok m = Abort ShapeMismatch m.
Proof.
  intros H. apply broadcastShape_None in H.
  rewrite fmod_Tensor_out_run. cbv zeta.
  unfold resize_to_broadcast_target_size. rewrite H. reflexivity.
Qed.

(** C4: in both kernels the cast check comes before the dispatch and the
    loop.  A call that reaches it (its resize step succeeded) with
    [canCast(common_type, out_type)] false fails with CastNotAllowed in the
    state the resize step left: no element has been computed or stored,
    and an output that already had the right shape is untouched.  More
    generally no call with a false [canCast] returns or stores an element:
    the only other way it can end is a failure of the resize step, in the
    state of the call. *)
Theorem cast_not_allowed_before_compute :
  (forall m m' : Operands (Tensor * Tensor),
      resize_to_broadcast_target_size resize_ok (ins m).1 (ins m).2 m
        = Ok tt m' ->
      canCast (promoteTypes (scalar_type (ins m).1) (scalar_type (ins m).2))
              (scalar_type (out m)) = false ->
      fmod_Tensor_out canCast resize_ok m = Abort CastNotAllowed m' /\
      (sizes (out m') = sizes (out m) -> m' = m)) /\
  (forall m m' : Operands (Tensor * Scalar),
      resize_tensor resize_ok (sizes (ins m).1) m = Ok Error.Ok m' ->
      canCast (promote_type_with_scalar (scalar_type (ins m).1) (ins m).2)
              (scalar_type (out m)) = false ->
      fmod_Scalar_out canCast resize_ok m = Abort CastNotAllowed m' /\
      (sizes (out m') = sizes (out m) -> m' = m)) /\
  (forall m : Operands (Tensor * Tensor),
      canCast (promoteTypes (scalar_type (ins m).1) (scalar_type (ins m).2))
              (scalar_type (out m)) = false ->
      exists k s,
        fmod_Tensor_out canCast resize_ok m = Abort k s /\
        (k = CastNotAllowed /\
         resize_to_broadcast_target_size resize_ok (ins m).1 (ins m).2 m
           = Ok tt s
         \/ (k = ShapeMismatch \/ k = AllocError) /\ s = m)) /\
  (forall m : Operands (Tensor * Scalar),
      canCast (promote_type_with_scalar (scalar_type (ins m).1) (ins m).2)
              (scalar_type (out m)) = false ->
      exists k s,
        fmod_Scalar_out canCast resize_ok m = Abort k s /\
        (k = CastNotAllowed /\
         resize_tensor resize_ok (sizes (ins m).1) m = Ok Error.Ok s
         \/ k = AllocError /\ s = m)).
Proof.
  assert (HT : forall m m' : Operands (Tensor * Tensor),
      resize_to_broadcast_target_size resize_ok (ins m).1 (ins m).2 m
        = Ok tt m' ->
      canCast (promoteTypes (scalar_type (ins m).1) (scalar_type (ins m).2))
              (scalar_type (out m)) = false ->
      fmod_Tensor_out canCast resize_ok m = Abort CastNotAllowed m').
  { intros m m' Hr Hc.
    pose proof (resize_to_broadcast_facts _ _ _ _ Hr) as (_ & Ht & _).
    rewrite fmod_Tensor_out_run. cbv zeta. rewrite Hr, Ht, Hc. reflexivity. }
  assert (HS : forall m m' : Operands (Tensor * Scalar),
      resize_tensor resize_ok (sizes (ins m).1) m = Ok Error.Ok m' ->
      canCast (promote_type_with_scalar (scalar_type (ins m).1) (ins m).2)
              (scalar_type (out m)) = false ->
      fmod_Scalar_out canCast resize_ok m = Abort CastNotAllowed m').
  { intros m m' Hr Hc.
    pose proof (resize_tensor_ok _ _ _ Hr) as (_ & Ht & _).
    rewrite fmod_Scalar_out_run. cbv zeta. rewrite Hr, Ht, Hc. reflexivity. }
  split; [|split; [|split]].
  - intros m m' Hr Hc. split; [apply HT; assumption|].
    apply (resize_to_broadcast_facts _ _ _ _ Hr).
  - intros m m' Hr Hc. split; [apply HS; assumption|].
    pose proof (resize_tensor_ok _ _ _ Hr) as (_ & _ & Hs & _ & Hid).
    intros E. apply Hid. congruence.
  - intros m Hc.
    destruct (resize_to_broadcast_target_size resize_ok (ins m).1 (ins m).2 m)
      as [[] m'|k s] eqn:Hr.
    + exists CastNotAllowed, m'. split; [apply HT; assumption | auto].
    + exists k, s. rewrite fmod_Tensor_out_run. cbv zeta. rewrite Hr.
      apply resize_to_broadcast_abort in Hr as [-> Hk]. auto.
  - intros m Hc.
    destruct (resize_tensor_total (sizes (ins m).1) m) as (err & s & Hr & Hs).
    destruct err.
    + exists CastNotAllowed, s. split; [apply HS; assumption | auto].
    + exists AllocError, m. rewrite fmod_Scalar_out_run. cbv zeta.
      rewrite Hr, Hs by discriminate. auto.
Qed.

(** C9: with [a] and [b] both boolean the common type is boolean; the
    input switches accept it, the compute switch does not.  Such a call
    never returns, and when it passes the resize step and the cast check
    it fails with UnsupportedType. *)
Theorem all_boolean_inputs_unsupported (m : Operands (Tensor * Tensor)) :
  scalar_type (ins m).1 = Bool ->
  scalar_type (ins m).2 = Bool ->
  (forall r, fmod_Tensor_out canCast resize_ok m <> Ok tt r) /\
  (forall m',
      resize_to_broadcast_target_size resize_ok (ins m).1 (ins m).2 m
        = Ok tt m' ->
      canCast Bool (scalar_type (out m)) = true ->
      fmod_Tensor_out canCast resize_ok m = Abort UnsupportedType m') /\
  (forall (body : ScalarType -> M (Operands (Tensor * Tensor)) unit) s,
      ET_SWITCH_REAL_TYPES_AND_Bool Bool body s = body Bool s /\
      ET_SWITCH_REAL_TYPES Bool body s = Abort UnsupportedType s).
Proof.
  intros Ha Hb. split; [|split].
  - intros r. rewrite fmod_Tensor_out_run. cbv zeta. rewrite Ha, Hb.
    destruct (resize_to_broadcast_target_size _ _ _ _); [|discriminate].
    simpl. destruct (canCast _ _); discriminate.
  - intros m' Hr Hc.
    pose proof (resize_to_broadcast_facts _ _ _ _ Hr) as (_ & Ht & _).
    rewrite fmod_Tensor_out_run. cbv zeta. rewrite Hr, Ha, Hb, Ht. simpl.
    rewrite Hc. reflexivity.
  - intros body s. split; reflexivity.
Qed.

(** Every path of the two kernels leaves the inputs as they were. *)
Lemma fmod_Tensor_out_frame (m : Operands (Tensor * Tensor)) :
  ins (final_state (fmod_Tensor_out canCast resize_ok m)) = ins m.
Proof.
  rewrite fmod_Tensor_out_run. cbv zeta.
  destruct (resize_to_broadcast_target_size _ _ _ _) as [[] m'|k s] eqn:Hr.
  - apply resize_to_broadcast_facts in Hr as (Hi & _).
    destruct (canCast _ _); [|exact Hi].
    destruct (_ && _); [|exact Hi].
    destruct (run_writes _ _ _).1; exact Hi.
  - unfold resize_to_broadcast_target_size in Hr.
    destruct (broadcastShape _ _) as [target|];
      [|injection Hr as <- <-; reflexivity].
    unfold bind, ET_CHECK in Hr.
    destruct (resize_tensor_total target m) as (err & s1 & E & Hs).
    rewrite E in Hr. destruct err; simpl in Hr; [discriminate|].
    injection Hr as <- <-. simpl. rewrite Hs; congruence.
Qed.

Lemma fmod_Scalar_out_frame (m : Operands (Tensor * Scalar)) :
  ins (final_state (fmod_Scalar_out canCast resize_ok m)) = ins m.
Proof.
  rewrite fmod_Scalar_out_run. cbv zeta.
  destruct (resize_tensor_total (sizes (ins m).1) m) as (err & s1 & E & Hs).
  rewrite E. destruct err.
  - apply resize_tensor_ok in E as (Hi & _).
    destruct (canCast _ _); [|exact Hi].
    destruct (isRealType _); [|exact Hi].
    destruct (_ && _); [exact Hi|].
    destruct (isRealType _); exact Hi.
  - simpl. rewrite Hs; congruence.
Qed.

(** C10: both kernels resize [out] before they check the cast.  A call
    that fails with CastNotAllowed fails in the state the resize left:
    [out] has the broadcast shape (the shape of [a] in the scalar kernel),
    whatever shape it had before.  The inputs are the same in the final
    state of every path. *)
Theorem resize_precedes_cast_check :
  (forall m m' : Operands (Tensor * Tensor),
      resize_to_broadcast_target_size resize_ok (ins m).1 (ins m).2 m
        = Ok tt m' ->
      canCast (promoteTypes (scalar_type (ins m).1) (scalar_type (ins m).2))
              (scalar_type (out m)) = false ->
      fmod_Tensor_out canCast resize_ok m = Abort CastNotAllowed m' /\
      broadcastShape (sizes (ins m).1) (sizes (ins m).2)
        = Some (sizes (out m')) /\
      (sizes (out m) <> sizes (out m') -> out m' <> out m)) /\
  (forall m m' : Operands (Tensor * Scalar),
      resize_tensor resize_ok (sizes (ins m).1) m = Ok Error.Ok m' ->
      canCast (promote_type_with_scalar (scalar_type (ins m).1) (ins m).2)
              (scalar_type (out m)) = false ->
      fmod_Scalar_out canCast resize_ok m = Abort CastNotAllowed m' /\
      sizes (out m') = sizes (ins m).1 /\
      (sizes (out m) <> sizes (out m') -> out m' <> out m)) /\
  (forall m : Operands (Tensor * Tensor),
      ins (final_state (fmod_Tensor_out canCast resize_ok m)) = ins m) /\
  (forall m : Operands (Tensor * Scalar),
      ins (final_state (fmod_Scalar_out canCast resize_ok m)) = ins m).
Proof.
  split; [|split; [|split]].
  - intros m m' Hr Hc.
    pose proof (resize_to_broadcast_facts _ _ _ _ Hr) as (_ & Ht & Hb & _).
    split; [|split; [exact Hb | congruence]].
    rewrite fmod_Tensor_out_run. cbv zeta. rewrite Hr, Ht, Hc. reflexivity.
  - intros m m' Hr Hc.
    pose proof (resize_tensor_ok _ _ _ Hr) as (_ & Ht & Hs & _).
    split; [|split; [exact Hs | congruence]].
    rewrite fmod_Scalar_out_run. cbv zeta. rewrite Hr, Ht, Hc. reflexivity.
  - apply fmod_Tensor_out_frame.
  - apply fmod_Scalar_out_frame.
Qed.

(** C1: a zero divisor aborts the call exactly in the integral domain.
    - Integral common type (a boolean operand may take part), tensor
      kernel: if the element of [b] matched to some output position is 0,
      the call never returns, and when it reaches the element function
      (resize step, cast check and dispatch passed) it fails with
      DomainViolation.
    - Integral common type, scalar kernel: if the extracted scalar is 0,
      the call never returns, and when it reaches the check it fails with
      DomainViolation, before the loop.
    - Floating common type, both kernels: a call that reaches the loop
      returns whatever the divisors are, every output element is the cast
      [std::fmod] result, and where the divisor is 0 that result is a NaN
      (stored as a NaN in a floating output). *)
Theorem zero_divisor_integral_aborts_floating_continues :
  (forall (m : Operands (Tensor * Tensor)) (target : list nat) (i : nat),
      let a := (ins m).1 in
      let b := (ins m).2 in
      let common_type := promoteTypes (scalar_type a) (scalar_type b) in
      broadcastShape (sizes a) (sizes b) = Some target ->
      isIntegralType common_type true = true ->
      i < shape_numel target ->
      is_zero (operand_b b target i) = true ->
      forall r, fmod_Tensor_out canCast resize_ok m <> Ok tt r) /\
  (forall m : Operands (Tensor * Scalar),
      let a := (ins m).1 in
      let b := (ins m).2 in
      let common_type := promote_type_with_scalar (scalar_type a) b in
      isIntegralType common_type true = true ->
      is_zero (extract_scalar b (get_scalar_dtype b)) = true ->
      forall r, fmod_Scalar_out canCast resize_ok m <> Ok tt r) /\
  (forall (m m' : Operands (Tensor * Tensor)) (i : nat),
      let a := (ins m).1 in
      let b := (ins m).2 in
      let common_type := promoteTypes (scalar_type a) (scalar_type b) in
      let out_type := scalar_type (out m) in
      resize_to_broadcast_target_size resize_ok a b m = Ok tt m' ->
      canCast common_type out_type = true ->
      isRealType common_type = true ->
      isRealType out_type = true ->
      isIntegralType common_type true = true ->
      i < numel (out m') ->
      is_zero (operand_b b (sizes (out m')) i) = true ->
      exists s, fmod_Tensor_out canCast resize_ok m
                  = Abort DomainViolation s) /\
  (forall m m' : Operands (Tensor * Scalar),
      let a := (ins m).1 in
      let b := (ins m).2 in
      let common_type := promote_type_with_scalar (scalar_type a) b in
      let out_type := scalar_type (out m) in
      resize_tensor resize_ok (sizes a) m = Ok Error.Ok m' ->
      canCast common_type out_type = true ->
      isRealType common_type = true ->
      isIntegralType common_type true = true ->
      is_zero (extract_scalar b (get_scalar_dtype b)) = true ->
      fmod_Scalar_out canCast resize_ok m = Abort DomainViolation m') /\
  (forall m m' : Operands (Tensor * Tensor),
      let a := (ins m).1 in
      let b := (ins m).2 in
      let common_type := promoteTypes (scalar_type a) (scalar_type b) in
      let out_type := scalar_type (out m) in
      resize_to_broadcast_target_size resize_ok a b m = Ok tt m' ->
      canCast common_type out_type = true ->
      isRealType out_type = true ->
      isFloatingType common_type = true ->
      wf_tensor (out m) ->
      exists r,
        fmod_Tensor_out canCast resize_ok m = Ok tt r /\
        forall i, i < numel (out m') ->
          let val_a := operand_a a (sizes (out m')) i in
          let val_b := operand_b b (sizes (out m')) i in
          data (out r) !! i
            = Some (fmod_value common_type out_type val_a val_b) /\
          (is_zero val_b = true ->
           std_fmod common_type (static_cast common_type val_a)
                                (static_cast common_type val_b)
             = CFloat S754_nan /\
           (isFloatingType out_type = true ->
            data (out r) !! i = Some (CFloat S754_nan)))) /\
  (forall m m' : Operands (Tensor * Scalar),
      let a := (ins m).1 in
      let b := (ins m).2 in
      let common_type := promote_type_with_scalar (scalar_type a) b in
      let out_type := scalar_type (out m) in
      let val_b := extract_scalar b (get_scalar_dtype b) in
      resize_tensor resize_ok (sizes a) m = Ok Error.Ok m' ->
      canCast common_type out_type = true ->
      isRealType out_type = true ->
      isFloatingType common_type = true ->
      wf_tensor (out m) ->
      exists r,
        fmod_Scalar_out canCast resize_ok m = Ok tt r /\
        forall i, i < numel (out m') ->
          let val_a := load (data a) i in
          data (out r) !! i
            = Some (fmod_value common_type out_type val_a val_b) /\
          (is_zero val_b = true ->
           std_fmod common_type (static_cast common_type val_a)
                                (static_cast common_type val_b)
             = CFloat S754_nan /\
           (isFloatingType out_type = true ->
            data (out r) !! i = Some (CFloat S754_nan)))).
Proof.
  split; [|split; [|split; [|split; [|split]]]].
  - intros m target i a b common_type Hb Hint Hi Hz r H.
    apply fmod_Tensor_out_Ok in H as (m' & Hr & _ & _ & Hall & _).
    cbv zeta in Hr, Hall. fold a b common_type in Hr, Hall.
    apply resize_to_broadcast_facts in Hr as (_ & _ & Hb' & _).
    fold a b in Hb'. rewrite Hb in Hb'. injection Hb' as E. subst target.
    rewrite Forall_forall in Hall.
    destruct (Hall i) as [v Hv]; [apply elem_of_seq; unfold numel; lia|].
    unfold fmod_elem in Hv. rewrite Hint, Hz in Hv. discriminate.
  - intros m a b common_type Hint Hz r H.
    apply fmod_Scalar_out_Ok in H as (m' & _ & _ & _ & Hnz & _).
    cbv zeta in Hnz. fold a b common_type in Hnz.
    rewrite Hint, Hz in Hnz. discriminate.
  - intros m m' i a b common_type out_type Hr Hc Hrc Hro Hint Hi Hz.
    pose proof (resize_to_broadcast_facts _ _ _ _ Hr) as (_ & Ht & _).
    rewrite fmod_Tensor_out_run. cbv zeta.
    fold a b. rewrite Hr, Ht. fold common_type out_type.
    rewrite Hc, Hrc, Hro. simpl andb. cbv iota.
    rewrite run_writes_some_abort; [eauto|].
    apply Exists_exists. exists i. split.
    + apply elem_of_seq. lia.
    + unfold fmod_elem. rewrite Hint, Hz. reflexivity.
  - intros m m' a b common_type out_type Hr Hc Hrc Hint Hz.
    pose proof (resize_tensor_ok _ _ _ Hr) as (_ & Ht & _).
    rewrite fmod_Scalar_out_run. cbv zeta.
    fold a b. rewrite Hr, Ht. fold common_type out_type.
    rewrite Hc, Hrc, Hint, Hz. reflexivity.
  - intros m m' a b common_type out_type Hr Hc Hro Hfl Hwf.
    pose proof (resize_to_broadcast_facts _ _ _ _ Hr)
      as (_ & Ht & _ & _ & Hwf').
    specialize (Hwf' Hwf). unfold wf_tensor in Hwf'.
    rewrite fmod_Tensor_out_run. cbv zeta.
    fold a b. rewrite Hr, Ht. fold common_type out_type.
    rewrite Hc, Hro, (floating_real _ Hfl). simpl andb. cbv iota.
    rewrite run_writes_prefix.
    2: { rewrite Hwf'. reflexivity. }
    2: { apply Forall_forall. intros j _.
         rewrite fmod_elem_floating by exact Hfl. eauto. }
    simpl. eexists. split; [reflexivity|]. intros i Hi. simpl.
    assert (Hlook :
      (((fun i0 => default (CInt 0)
           (fmod_elem common_type out_type
              (operand_a a (sizes (out m')) i0)
              (operand_b b (sizes (out m')) i0)))
          <$> seq 0 (numel (out m')))
         ++ drop (numel (out m')) (data (out m'))) !! i
      = Some (fmod_value common_type out_type
                (operand_a a (sizes (out m')) i)
                (operand_b b (sizes (out m')) i))).
    { rewrite lookup_app_l by (rewrite length_fmap, length_seq; exact Hi).
      rewrite list_lookup_fmap, lookup_seq_lt by exact Hi. simpl.
      rewrite fmod_elem_floating by exact Hfl. reflexivity. }
    split; [exact Hlook|]. intros Hz.
    pose proof (fmod_value_zero_divisor common_type out_type
                  (operand_a a (sizes (out m')) i) _ Hfl Hz) as Hnan.
    split.
    + destruct (static_cast_zero _ _ Hfl Hz) as [s ->].
      apply std_fmod_zero_divisor, Hfl.
    + intros Hfo. etrans; [exact Hlook|].
      rewrite Hnan, static_cast_nan by exact Hfo. reflexivity.
  - intros m m' a b common_type out_type val_b Hr Hc Hro Hfl Hwf.
    pose proof (resize_tensor_wf _ _ _ Hr Hwf) as Hwf'.
    unfold wf_tensor in Hwf'.
    pose proof (resize_tensor_ok _ _ _ Hr) as (_ & Ht & _).
    rewrite fmod_Scalar_out_run. cbv zeta.
    fold a b. rewrite Hr, Ht. fold common_type out_type val_b.
    rewrite Hc, Hro, (floating_real _ Hfl),
      (floating_not_integral _ Hfl). simpl andb. cbv iota.
    rewrite run_writes_prefix.
    2: { rewrite Hwf'. reflexivity. }
    2: { apply Forall_forall. eauto. }
    simpl. eexists. split; [reflexivity|]. intros i Hi. simpl.
    assert (Hlook :
      (((fun i0 => default (CInt 0)
           (Some (fmod_value common_type out_type (load (data a) i0) val_b)))
          <$> seq 0 (numel (out m')))
         ++ drop (numel (out m')) (data (out m'))) !! i
      = Some (fmod_value common_type out_type (load (data a) i) val_b)).
    { rewrite lookup_app_l by (rewrite length_fmap, length_seq; exact Hi).
      rewrite list_lookup_fmap, lookup_seq_lt by exact Hi. reflexivity. }
    split; [exact Hlook|]. intros Hz.
    pose proof (fmod_value_zero_divisor common_type out_type
                  (load (data a) i) _ Hfl Hz) as Hnan.
    split.
    + destruct (static_cast_zero _ _ Hfl Hz) as [s ->].
      apply std_fmod_zero_divisor, Hfl.
    + intros Hfo. etrans; [exact Hlook|].
      rewrite Hnan, static_cast_nan by exact Hfo. reflexivity.
Qed.

(** C2 (amended): in [fmod_Tensor_out] the zero check sits in the
    element function, so the loop has stored the positions before the
    first zero divisor when it aborts.  For a call that reaches the loop
    with an integral common type, if [k] is the first output position
    whose element of [b] is 0, the call fails with DomainViolation and
    the buffer of [out] holds the computed results at the positions
    before [k] and what the resize step left at [k] and after: no
    position from [k] on is written. *)
Theorem domain_violation_writes_prefix_only :
  forall (m m' : Operands (Tensor * Tensor)) (k : nat),
    let a := (ins m).1 in
    let b := (ins m).2 in
    let common_type := promoteTypes (scalar_type a) (scalar_type b) in
    let out_type := scalar_type (out m) in
    resize_to_broadcast_target_size resize_ok a b m = Ok tt m' ->
    canCast common_type out_type = true ->
    isRealType common_type = true ->
    isRealType out_type = true ->
    isIntegralType common_type true = true ->
    wf_tensor (out m) ->
    k < numel (out m') ->
    is_zero (operand_b b (sizes (out m')) k) = true ->
    (forall i, i < k -> is_zero (operand_b b (sizes (out m')) i) = false) ->
    fmod_Tensor_out canCast resize_ok m =
      Abort DomainViolation
        (with_data m'
           (((fun i => fmod_value common_type out_type
                         (operand_a a (sizes (out m')) i)
                         (operand_b b (sizes (out m')) i)) <$> seq 0 k)
            ++ drop k (data (out m')))).
Proof.
  intros m m' k a b common_type out_type Hr Hc Hrc Hro Hint Hwf Hk Hz Hnz.
  pose proof (resize_to_broadcast_facts _ _ _ _ Hr)
    as (_ & Ht & _ & _ & Hwf').
  specialize (Hwf' Hwf). unfold wf_tensor in Hwf'.
  rewrite fmod_Tensor_out_run. cbv zeta.
  fold a b. rewrite Hr, Ht. fold common_type out_type.
  rewrite Hc, Hrc, Hro. simpl andb. cbv iota.
  rewrite (run_writes_first_abort _ k).
  - simpl. do 3 f_equal. apply list_fmap_ext. intros j i Hj.
    apply lookup_seq in Hj as [-> Hj]. simpl in *.
    unfold fmod_elem. rewrite (Hnz _ Hj), andb_false_r. reflexivity.
  - exact Hk.
  - rewrite Hwf'. reflexivity.
  - apply Forall_forall. intros i Hi. apply elem_of_seq in Hi.
    unfold fmod_elem. rewrite (Hnz i), andb_false_r by lia. eauto.
  - unfold fmod_elem. rewrite Hint, Hz. reflexivity.
Qed.

(** *** Two runs *)

(** The outcome of a run that returns depends on [out] only through the
    shape, the type tag and the length of the buffer it has after the
    resize step. *)
Lemma fmod_Tensor_out_ext (m1 m2 m1' m2' r : Operands (Tensor * Tensor)) :
  ins m1 = ins m2 ->
  resize_to_broadcast_target_size resize_ok (ins m1).1 (ins m1).2 m1
    = Ok tt m1' ->
  resize_to_broadcast_target_size resize_ok (ins m2).1 (ins m2).2 m2
    = Ok tt m2' ->
  sizes (out m1') = sizes (out m2') ->
  scalar_type (out m1') = scalar_type (out m2') ->
  wf_tensor (out m1') -> wf_tensor (out m2') ->
  fmod_Tensor_out canCast resize_ok m1 = Ok tt r ->
  fmod_Tensor_out canCast resize_ok m2 = Ok tt r.
Proof.
  intros Hins Hr1 Hr2 Hs Ht Hwf1 Hwf2 H1.
  apply fmod_Tensor_out_Ok in H1 as (m & Hr & Hc & Hreal & Hall & ->).
  cbv zeta in *. rewrite Hr1 in Hr. injection Hr as <-.
  pose proof (resize_to_broadcast_facts _ _ _ _ Hr1) as (Hi1 & _).
  pose proof (resize_to_broadcast_facts _ _ _ _ Hr2) as (Hi2 & _).
  unfold wf_tensor, numel in *.
  rewrite fmod_Tensor_out_run. cbv zeta.
  rewrite Hr2, <- Hins, <- Ht, Hc, Hreal, <- Hs.
  unfold numel. rewrite <- Hs. rewrite <- Hs in Hwf2.
  rewrite !run_writes_prefix by (assumption || lia).
  simpl. rewrite !drop_ge by lia.
  unfold with_data. simpl. rewrite Hi1, Hi2, Hins, Hs, Ht. reflexivity.
Qed.

Lemma resize_tensor_same_config {I} new_sizes (s1 s2 s1' : Operands I) :
  ins s1 = ins s2 ->
  same_config resize_ok (out s1) (out s2) ->
  resize_tensor resize_ok new_sizes s1 = Ok Error.Ok s1' ->
  exists s2',
    resize_tensor resize_ok new_sizes s2 = Ok Error.Ok s2' /\
    sizes (out s1') = sizes (out s2') /\
    scalar_type (out s1') = scalar_type (out s2') /\
    wf_tensor (out s1') /\ wf_tensor (out s2').
Proof.
  intros Hins (Hs & Ht & Hwf1 & Hwf2 & Hok) H1.
  pose proof (resize_tensor_wf _ _ _ H1 Hwf1) as Hwf1'.
  pose proof (resize_tensor_ok _ _ _ H1) as (_ & Ht1 & Hs1 & _).
  assert (exists s2', resize_tensor resize_ok new_sizes s2 = Ok Error.Ok s2')
    as [s2' H2].
  { unfold resize_tensor in *. rewrite <- Hs, <- Hok.
    destruct (decide _); [eauto|].
    destruct (resize_ok _ _); [eauto | discriminate]. }
  exists s2'. split; [exact H2|].
  pose proof (resize_tensor_wf _ _ _ H2 Hwf2) as Hwf2'.
  pose proof (resize_tensor_ok _ _ _ H2) as (_ & Ht2 & Hs2 & _).
  repeat split; congruence.
Qed.

Lemma fmod_Scalar_out_ext (m1 m2 m1' m2' r : Operands (Tensor * Scalar)) :
  ins m1 = ins m2 ->
  resize_tensor resize_ok (sizes (ins m1).1) m1 = Ok Error.Ok m1' ->
  resize_tensor resize_ok (sizes (ins m2).1) m2 = Ok Error.Ok m2' ->
  sizes (out m1') = sizes (out m2') ->
  scalar_type (out m1') = scalar_type (out m2') ->
  wf_tensor (out m1') -> wf_tensor (out m2') ->
  fmod_Scalar_out canCast resize_ok m1 = Ok tt r ->
  fmod_Scalar_out canCast resize_ok m2 = Ok tt r.
Proof.
  intros Hins Hr1 Hr2 Hs Ht Hwf1 Hwf2 H1.
  apply fmod_Scalar_out_Ok in H1
    as (m & Hr & Hc & Hrc & Hz & Hro & ->).
  cbv zeta in *. rewrite Hr1 in Hr. injection Hr as <-.
  pose proof (resize_tensor_ok _ _ _ Hr1) as (Hi1 & _).
  pose proof (resize_tensor_ok _ _ _ Hr2) as (Hi2 & _).
  unfold wf_tensor, numel in *.
  rewrite fmod_Scalar_out_run. cbv zeta.
  rewrite Hr2, <- Hins, <- Ht, Hc, Hrc, Hz, Hro.
  unfold numel. rewrite <- Hs. rewrite <- Hs in Hwf2.
  rewrite !run_writes_prefix
    by (assumption || lia || (apply Forall_forall; eauto)).
  simpl. rewrite !drop_ge by lia.
  unfold with_data. simpl. rewrite Hi1, Hi2, Hins, Hs, Ht. reflexivity.
Qed.

(** C8: both kernels are deterministic in the contents of [out].  Two
    runs on the same inputs, with output tensors configured alike, whose
    buffers may hold anything: when one returns, the other returns the
    same state, buffer of [out] included.  And a second run on the state
    the first one returned gives that state again. *)
Theorem fmod_deterministic :
  (forall m1 m2 r : Operands (Tensor * Tensor),
      ins m1 = ins m2 ->
      same_config resize_ok (out m1) (out m2) ->
      fmod_Tensor_out canCast resize_ok m1 = Ok tt r ->
      fmod_Tensor_out canCast resize_ok m2 = Ok tt r) /\
  (forall m r : Operands (Tensor * Tensor),
      wf_tensor (out m) ->
      fmod_Tensor_out canCast resize_ok m = Ok tt r ->
      fmod_Tensor_out canCast resize_ok r = Ok tt r) /\
  (forall m1 m2 r : Operands (Tensor * Scalar),
      ins m1 = ins m2 ->
      same_config resize_ok (out m1) (out m2) ->
      fmod_Scalar_out canCast resize_ok m1 = Ok tt r ->
      fmod_Scalar_out canCast resize_ok m2 = Ok tt r) /\
  (forall m r : Operands (Tensor * Scalar),
      wf_tensor (out m) ->
      fmod_Scalar_out canCast resize_ok m = Ok tt r ->
      fmod_Scalar_out canCast resize_ok r = Ok tt r).
Proof.
  split; [|split; [|split]].
  - intros m1 m2 r Hins Hcfg H.
    pose proof (fmod_Tensor_out_Ok _ _ H) as (m1' & Hr1 & _).
    cbv zeta in Hr1.
    pose proof (proj1 (resize_to_broadcast_ok _ _ _ _) Hr1)
      as (target & Hb & Hrt).
    destruct (resize_tensor_same_config _ _ _ _ Hins Hcfg Hrt)
      as (m2' & Hrt2 & Hs & Ht & Hwf1 & Hwf2).
    apply (fmod_Tensor_out_ext m1 m2 m1' m2'); try assumption.
    rewrite <- Hins. apply resize_to_broadcast_ok. eauto.
  - intros m r Hwf H.
    pose proof (fmod_Tensor_out_Ok _ _ H) as (m' & Hr & _ & _ & _ & Er).
    cbv zeta in Hr, Er.
    pose proof (resize_to_broadcast_facts _ _ _ _ Hr)
      as (Hi & _ & Hb & _ & Hwf').
    specialize (Hwf' Hwf).
    assert (Hir : ins r = ins m) by (rewrite Er; exact Hi).
    assert (Hsr : sizes (out r) = sizes (out m')) by (rewrite Er; reflexivity).
    apply (fmod_Tensor_out_ext m r m' r); try assumption; try congruence.
    + rewrite Hir. apply resize_to_broadcast_ok.
      exists (sizes (out m')). split; [exact Hb|].
      unfold resize_tensor. rewrite Hsr.
      destruct (decide _); [reflexivity | congruence].
    + rewrite Er. reflexivity.
    + rewrite Er. unfold wf_tensor, numel in *. simpl.
      rewrite run_writes_length. exact Hwf'.
  - intros m1 m2 r Hins Hcfg H.
    pose proof (fmod_Scalar_out_Ok _ _ H) as (m1' & Hr1 & _).
    cbv zeta in Hr1.
    destruct (resize_tensor_same_config _ _ _ _ Hins Hcfg Hr1)
      as (m2' & Hrt2 & Hs & Ht & Hwf1 & Hwf2).
    apply (fmod_Scalar_out_ext m1 m2 m1' m2'); try assumption.
    rewrite <- Hins. exact Hrt2.
  - intros m r Hwf H.
    pose proof (fmod_Scalar_out_Ok _ _ H)
      as (m' & Hr & _ & _ & _ & _ & Er).
    cbv zeta in Hr, Er.
    pose proof (resize_tensor_wf _ _ _ Hr Hwf) as Hwf'.
    pose proof (resize_tensor_ok _ _ _ Hr) as (Hi & _ & Hs & _).
    assert (Hir : ins r = ins m) by (rewrite Er; exact Hi).
    assert (Hsr : sizes (out r) = sizes (out m')) by (rewrite Er; reflexivity).
    apply (fmod_Scalar_out_ext m r m' r); try assumption; try congruence.
    + rewrite Hir. unfold resize_tensor. rewrite Hsr, Hs.
      destruct (decide _); [reflexivity | congruence].
    + rewrite Er. reflexivity.
    + rewrite Er. unfold wf_tensor, numel in *. simpl.
      rewrite run_writes_length. exact Hwf'.
Qed.

(** *** Worked examples *)

Lemma resize_tensor_succeeds {I} new_sizes (s : Operands I) :
  sizes (out s) = new_sizes \/ resize_ok (out s) new_sizes = true ->
  exists s', resize_tensor resize_ok new_sizes s = Ok Error.Ok s'.
Proof.
  intros H. unfold resize_tensor. destruct (decide _); [eauto|].
  destruct H as [H|H]; [contradiction|]. rewrite H. eauto.
Qed.

(** C3: for [a = [5, 7, -3]] and [b = [2, 2, 2]] of one signed integer
    type, with [out] of that type, [fmod_Tensor_out] returns with
    [out = [1, 1, -1]] of shape [3]: the remainder has the sign of the
    dividend.  The platform is asked to allow the identity cast and to
    give [out] the shape [3] when it does not have it. *)
Theorem fmod_Tensor_out_integer_example (T : ScalarType) (o : Tensor) :
  In T [Char; Short; Int; Long] ->
  canCast T T = true ->
  scalar_type o = T ->
  wf_tensor o ->
  sizes o = [3] \/ resize_ok o [3] = true ->
  let a := mkTensor [3] T [CInt 5; CInt 7; CInt (-3)] in
  let b := mkTensor [3] T [CInt 2; CInt 2; CInt 2] in
  fmod_Tensor_out canCast resize_ok (mkOperands (a, b) o) =
    Ok tt (mkOperands (a, b)
             (mkTensor [3] T [CInt 1; CInt 1; CInt (-1)])).
Proof.
  intros HT Hc Ht Hwf Hres a b.
  destruct (resize_tensor_succeeds [3] (mkOperands (a, b) o) Hres)
    as [m' Hr].
  pose proof (resize_tensor_wf _ _ _ Hr Hwf) as Hwf'.
  pose proof (resize_tensor_ok _ _ _ Hr) as (Hi & Ht' & Hs & _).
  assert (Hrb : resize_to_broadcast_target_size resize_ok a b
                  (mkOperands (a, b) o) = Ok tt m').
  { apply resize_to_broadcast_ok. exists [3].
    split; [reflexivity | exact Hr]. }
  rewrite fmod_Tensor_out_run. cbv zeta. simpl ins. simpl fst. simpl snd.
  rewrite Hrb.
  destruct m' as [i' [sz ty d]]. simpl in Hi, Ht', Hs. subst i' sz ty.
  unfold wf_tensor, numel in Hwf'. simpl in Hwf'.
  destruct d as [|x [|y [|z [|? ?]]]]; try discriminate Hwf'.
  simpl ins; simpl out; simpl scalar_type.
  rewrite promoteTypes_diag, Ht, Hc.
  simpl in HT. destruct HT as [<-|[<-|[<-|[<-|[]]]]]; reflexivity.
Qed.

(** C7: for the [float] tensor [a = [5.5]] and the integral scalar
    [b = 2], with a [float] output, the common type is [float] and
    [fmod_Scalar_out] returns with [out = [1.5]], exactly.  (5.5 is
    11 * 2^-1 and 1.5 is 3 * 2^-1.) *)
Theorem fmod_Scalar_out_float_example (o : Tensor) :
  canCast Float Float = true ->
  scalar_type o = Float ->
  wf_tensor o ->
  sizes o = [1] \/ resize_ok o [1] = true ->
  let a := mkTensor [1] Float [f32 11 (-1)] in
  let b := ScalarInt 2 in
  promote_type_with_scalar (scalar_type a) b = Float /\
  fmod_Scalar_out canCast resize_ok (mkOperands (a, b) o) =
    Ok tt (mkOperands (a, b) (mkTensor [1] Float [f32 3 (-1)])).
Proof.
  intros Hc Ht Hwf Hres a b. split; [reflexivity|].
  destruct (resize_tensor_succeeds [1] (mkOperands (a, b) o) Hres)
    as [m' Hr].
  pose proof (resize_tensor_wf _ _ _ Hr Hwf) as Hwf'.
  pose proof (resize_tensor_ok _ _ _ Hr) as (Hi & Ht' & Hs & _).
  rewrite fmod_Scalar_out_run. cbv zeta. simpl ins. simpl fst. simpl snd.
  simpl sizes at 1. rewrite Hr.
  destruct m' as [i' [sz ty d]]. simpl in Hi, Ht', Hs. subst i' sz ty.
  unfold wf_tensor, numel in Hwf'. simpl in Hwf'.
  destruct d as [|x [|? ?]]; try discriminate Hwf'.
  simpl ins; simpl out; simpl scalar_type.
  change (promote_type_with_scalar Float b) with Float.
  rewrite Ht, Hc. reflexivity.
Qed.

End Properties.

(** ** The claims on concrete calls *)

(** The platform of the examples: [canCast_sample] and an allocator that
    never fails. *)

Lemma fmod_Tensor_out_shape_mismatch_witness :
  incompatible_shapes [3; 4] [3; 5] /\
  fmod_Tensor_out canCast_sample resize_always ex_mismatch
    = Abort ShapeMismatch ex_mismatch.
Proof.
  assert (H : incompatible_shapes [3; 4] [3; 5]).
  { exists 0, 4, 5. repeat split; (reflexivity || discriminate). }
  split; [exact H|].
  apply (fmod_Tensor_out_shape_mismatch canCast_sample resize_always
           ex_mismatch H).
Defined.

Lemma cast_not_allowed_before_compute_witness :
  (resize_to_broadcast_target_size resize_always
     (ins ex_bad_cast).1 (ins ex_bad_cast).2 ex_bad_cast
     = Ok tt ex_bad_cast_resized /\
   canCast_sample Float Int = false /\
   fmod_Tensor_out canCast_sample resize_always ex_bad_cast
     = Abort CastNotAllowed ex_bad_cast_resized) /\
  (resize_tensor resize_always (sizes (ins ex_bad_cast_scalar).1)
     ex_bad_cast_scalar = Ok Error.Ok ex_bad_cast_scalar_resized /\
   fmod_Scalar_out canCast_sample resize_always ex_bad_cast_scalar
     = Abort CastNotAllowed ex_bad_cast_scalar_resized).
Proof.
  pose proof (cast_not_allowed_before_compute canCast_sample resize_always)
    as (HT & HS & _ & _).
  split.
  - split; [reflexivity|]. split; [reflexivity|].
    apply (HT ex_bad_cast ex_bad_cast_resized); reflexivity.
  - split; [reflexivity|].
    apply (HS ex_bad_cast_scalar ex_bad_cast_scalar_resized); reflexivity.
Defined.

Lemma all_boolean_inputs_unsupported_witness :
  canCast_sample Bool Bool = true /\
  fmod_Tensor_out canCast_sample resize_always ex_all_bool
    = Abort UnsupportedType ex_all_bool.
Proof.
  split; [reflexivity|].
  destruct (all_boolean_inputs_unsupported canCast_sample resize_always
              ex_all_bool eq_refl eq_refl) as (_ & H & _).
  apply (H ex_all_bool); reflexivity.
Defined.

Lemma resize_precedes_cast_check_witness :
  fmod_Tensor_out canCast_sample resize_always ex_bad_cast
    = Abort CastNotAllowed ex_bad_cast_resized /\
  sizes (out ex_bad_cast) = [1] /\
  sizes (out ex_bad_cast_resized) = [2] /\
  out ex_bad_cast_resized <> out ex_bad_cast /\
  fmod_Scalar_out canCast_sample resize_always ex_bad_cast_scalar
    = Abort CastNotAllowed ex_bad_cast_scalar_resized /\
  out ex_bad_cast_scalar_resized <> out ex_bad_cast_scalar.
Proof.
  pose proof (resize_precedes_cast_check canCast_sample resize_always)
    as (HT & HS & _ & _).
  destruct (HT ex_bad_cast ex_bad_cast_resized eq_refl eq_refl)
    as (H1 & _ & H2).
  destruct (HS ex_bad_cast_scalar ex_bad_cast_scalar_resized
              eq_refl eq_refl) as (H3 & _ & H4).
  split; [exact H1|]. split; [reflexivity|]. split; [reflexivity|].
  split; [apply H2; discriminate|].
  split; [exact H3 | apply H4; discriminate].
Defined.

Lemma zero_divisor_integral_aborts_floating_continues_witness :
  (promoteTypes Int Bool = Int /\
   operand_b (ins ex_bool_divisor).2 [2] 1 = CInt 0 /\
   exists s, fmod_Tensor_out canCast_sample resize_always ex_bool_divisor
               = Abort DomainViolation s) /\
  fmod_Scalar_out canCast_sample resize_always ex_scalar_zero
    = Abort DomainViolation ex_scalar_zero_resized /\
  (exists r,
      fmod_Tensor_out canCast_sample resize_always ex_float_zero = Ok tt r /\
      data (out r) !! 0 = Some (CFloat S754_nan)) /\
  (exists r,
      fmod_Scalar_out canCast_sample resize_always ex_float_scalar_zero
        = Ok tt r /\
      data (out r) !! 0 = Some (CFloat S754_nan)).
Proof.
  pose proof (zero_divisor_integral_aborts_floating_continues
                canCast_sample resize_always) as (_ & _ & H1 & H2 & H3 & H4).
  split; [|split; [|split]].
  - split; [reflexivity|]. split; [reflexivity|].
    apply (H1 ex_bool_divisor ex_bool_divisor 1); try reflexivity.
    vm_compute. lia.
  - apply (H2 ex_scalar_zero ex_scalar_zero_resized); reflexivity.
  - destruct (H3 ex_float_zero ex_float_zero
                eq_refl eq_refl eq_refl eq_refl eq_refl) as (r & Hr & Hall).
    exists r. split; [exact Hr|].
    assert (Hlt : 0 < numel (out ex_float_zero)) by (vm_compute; lia).
    destruct (Hall 0 Hlt) as [_ Hz].
    apply (Hz eq_refl). reflexivity.
  - destruct (H4 ex_float_scalar_zero ex_float_scalar_zero
                eq_refl eq_refl eq_refl eq_refl eq_refl) as (r & Hr & Hall).
    exists r. split; [exact Hr|].
    assert (Hlt : 0 < numel (out ex_float_scalar_zero)) by (vm_compute; lia).
    destruct (Hall 0 Hlt) as [_ Hz].
    apply (Hz eq_refl). reflexivity.
Defined.

(** C2, as stated, fails on [a = [5, 7]], [b = [2, 0]]: the common type is
    integral, the divisor at position 1 is 0, the call fails with
    DomainViolation, and position 0 of [out], which held 9, holds the
    computed [5 fmod 2 = 1] at that moment. *)
Lemma domain_violation_partial_output_counterexample :
  isIntegralType (promoteTypes Int Int) true = true /\
  operand_b (ins ex_zero_second).2 [2] 1 = CInt 0 /\
  data (out ex_zero_second) = [CInt 9; CInt 9] /\
  exists s,
    fmod_Tensor_out canCast_sample resize_always ex_zero_second
      = Abort DomainViolation s /\
    data (out s) = [CInt 1; CInt 9] /\
    data (out s) <> data (out ex_zero_second).
Proof.
  split; [reflexivity|]. split; [reflexivity|]. split; [reflexivity|].
  exists (with_data ex_zero_second [CInt 1; CInt 9]).
  split; [reflexivity|]. split; [reflexivity|]. discriminate.
Qed.

Lemma domain_violation_writes_prefix_only_witness :
  operand_b (ins ex_zero_second).2 [2] 1 = CInt 0 /\
  operand_b (ins ex_zero_second).2 [2] 0 = CInt 2 /\
  fmod_Tensor_out canCast_sample resize_always ex_zero_second
    = Abort DomainViolation
        (with_data ex_zero_second [CInt 1; CInt 9]).
Proof.
  split; [reflexivity|]. split; [reflexivity|].
  apply (domain_violation_writes_prefix_only canCast_sample resize_always
           ex_zero_second ex_zero_second 1); try reflexivity.
  - vm_compute. lia.
  - intros i Hi. assert (i = 0) as -> by lia. reflexivity.
Defined.

Lemma fmod_deterministic_witness :
  (same_config resize_always (out ex_run1) (out ex_run2) /\
   data (out ex_run1) <> data (out ex_run2) /\
   fmod_Tensor_out canCast_sample resize_always ex_run1
     = Ok tt ex_run_result /\
   fmod_Tensor_out canCast_sample resize_always ex_run2
     = Ok tt ex_run_result /\
   fmod_Tensor_out canCast_sample resize_always ex_run_result
     = Ok tt ex_run_result) /\
  (fmod_Scalar_out canCast_sample resize_always ex_srun1
     = Ok tt ex_srun_result /\
   fmod_Scalar_out canCast_sample resize_always ex_srun2
     = Ok tt ex_srun_result /\
   fmod_Scalar_out canCast_sample resize_always ex_srun_result
     = Ok tt ex_srun_result).
Proof.
  pose proof (fmod_deterministic canCast_sample resize_always)
    as (HT & HT' & HS & HS').
  assert (Hcfg : same_config resize_always (out ex_run1) (out ex_run2)).
  { repeat split; reflexivity. }
  assert (Hscfg : same_config resize_always (out ex_srun1) (out ex_srun2)).
  { repeat split; reflexivity. }
  split.
  - split; [exact Hcfg|]. split; [discriminate|].
    split; [reflexivity|]. split.
    + apply (HT ex_run1 ex_run2 ex_run_result eq_refl Hcfg eq_refl).
    + apply (HT' ex_run1 ex_run_result eq_refl eq_refl).
  - split; [reflexivity|]. split.
    + apply (HS ex_srun1 ex_srun2 ex_srun_result eq_refl Hscfg eq_refl).
    + apply (HS' ex_srun1 ex_srun_result eq_refl eq_refl).
Defined.

Lemma fmod_Tensor_out_integer_example_witness :
  fmod_Tensor_out canCast_sample resize_always
    (mkOperands (int_tensor [3] [5; 7; -3]%Z, int_tensor [3] [2; 2; 2]%Z)
                (int_tensor [] [9]%Z))
  = Ok tt (mkOperands
             (int_tensor [3] [5; 7; -3]%Z, int_tensor [3] [2; 2; 2]%Z)
             (int_tensor [3] [1; 1; -1]%Z)).
Proof.
  apply (fmod_Tensor_out_integer_example canCast_sample resize_always
           Int (int_tensor [] [9]%Z)).
  - simpl. auto.
  - reflexivity.
  - reflexivity.
  - reflexivity.
  - right. reflexivity.
Defined.

Lemma fmod_Scalar_out_float_example_witness :
  fmod_Scalar_out canCast_sample resize_always
    (mkOperands (float_tensor [1] [f32 11 (-1)], ScalarInt 2)
                (float_tensor [1] [f32 0 0]))
  = Ok tt (mkOperands (float_tensor [1] [f32 11 (-1)], ScalarInt 2)
                      (float_tensor [1] [f32 3 (-1)])).
Proof.
  apply (fmod_Scalar_out_float_example canCast_sample resize_always
           (float_tensor [1] [f32 0 0])).
  - reflexivity.
  - reflexivity.
  - reflexivity.
  - left. reflexivity.
Defined.

(** ** Further properties of the kernels *)

(** ** Integer remainders through [double] *)

Local Open Scope Z_scope.

(** [digits2_pos] counts the binary digits. *)
Lemma digits2_pos_bounds m :
  2 ^ (Z.pos (digits2_pos m) - 1) <= Z.pos m < 2 ^ Z.pos (digits2_pos m).
Proof.
  induction m as [m IH|m IH|]; simpl digits2_pos.
  - rewrite Pos2Z.inj_succ, (Pos2Z.inj_xI m).
    replace (Z.succ (Z.pos (digits2_pos m)) - 1)
      with (Z.succ (Z.pos (digits2_pos m) - 1)) by lia.
    rewrite !Z.pow_succ_r by lia.
    generalize dependent (2 ^ (Z.pos (digits2_pos m) - 1)).
    generalize dependent (2 ^ Z.pos (digits2_pos m)). intros; lia.
  - rewrite Pos2Z.inj_succ, (Pos2Z.inj_xO m).
    replace (Z.succ (Z.pos (digits2_pos m)) - 1)
      with (Z.succ (Z.pos (digits2_pos m) - 1)) by lia.
    rewrite !Z.pow_succ_r by lia.
    generalize dependent (2 ^ (Z.pos (digits2_pos m) - 1)).
    generalize dependent (2 ^ Z.pos (digits2_pos m)). intros; lia.
  - simpl. lia.
Qed.

Lemma digits2_pos_unique m d :
  2 ^ (d - 1) <= Z.pos m < 2 ^ d -> Z.pos (digits2_pos m) = d.
Proof.
  intros [Hlo Hhi]. pose proof (digits2_pos_bounds m) as [Hlo' Hhi'].
  assert (0 < d).
  { destruct (Z.lt_ge_cases 0 d) as [?|?]; [assumption|].
    assert (2 ^ d <= 2 ^ 0) by (apply Z.pow_le_mono_r; lia). simpl in *. lia. }
  destruct (Z.lt_trichotomy (Z.pos (digits2_pos m)) d) as [Hlt|[Heq|Hgt]];
    [|exact Heq|].
  - assert (2 ^ Z.pos (digits2_pos m) <= 2 ^ (d - 1))
      by (apply Z.pow_le_mono_r; lia). lia.
  - assert (2 ^ d <= 2 ^ (Z.pos (digits2_pos m) - 1))
      by (apply Z.pow_le_mono_r; lia). lia.
Qed.

Lemma iter_xO_mul m k : Z.pos (Pos.iter xO m k) = Z.pos m * 2 ^ Z.pos k.
Proof.
  induction k as [|k IH] using Pos.peano_ind.
  - simpl. lia.
  - rewrite Pos.iter_succ, Pos2Z.inj_xO, IH, Pos2Z.inj_succ, Z.pow_succ_r by lia.
    lia.
Qed.

Lemma shl_align_spec mx ex ex' :
  ex' <= ex ->
  Z.pos (shl_align mx ex ex').1 = Z.pos mx * 2 ^ (ex - ex') /\
  (shl_align mx ex ex').2 = ex'.
Proof.
  intros H. unfold shl_align.
  destruct (ex' - ex) as [|d|d] eqn:E; simpl.
  - assert (ex = ex') as -> by lia. rewrite Z.sub_diag. simpl. lia.
  - lia.
  - rewrite iter_xO_mul. replace (ex - ex') with (Z.pos d) by lia. lia.
Qed.

Lemma binary_round_aux_exact s m e :
  Z.pos (digits2_pos m) = 53 -> -1074 <= e <= 971 ->
  binary_round_aux 53 1024 s (Z.pos m) e loc_Exact = S754_finite s m e.
Proof.
  intros Hd He. unfold binary_round_aux, shr_fexp, fexp, emin. simpl Zdigits2.
  rewrite Hd.
  replace (Z.max (53 + e - 53) (3 - 1024 - 53) - e) with 0 by lia.
  simpl. rewrite Hd.
  replace (Z.max (53 + e - 53) (3 - 1024 - 53) - e) with 0 by lia.
  simpl. destruct (e <=? 1024 - 53) eqn:E; [reflexivity|].
  apply Z.leb_gt in E. lia.
Qed.

Lemma binary_round_exact s m e :
  Z.pos m < 2 ^ 53 -> -1000 <= e <= 900 ->
  exists m' e',
    binary_round 53 1024 s m e = S754_finite s m' e' /\
    e' = Z.pos (digits2_pos m) + e - 53 /\ e' <= e /\
    Z.pos m' = Z.pos m * 2 ^ (e - e') /\ Z.pos m' < 2 ^ 53.
Proof.
  intros Hm He. pose proof (digits2_pos_bounds m) as [Hlo Hhi].
  assert (Hd : 0 < Z.pos (digits2_pos m) <= 53).
  { split; [lia|].
    destruct (Z.le_gt_cases (Z.pos (digits2_pos m)) 53) as [?|?]; [assumption|].
    assert (2 ^ 53 <= 2 ^ (Z.pos (digits2_pos m) - 1))
      by (apply Z.pow_le_mono_r; lia). lia. }
  unfold binary_round.
  remember (Z.pos (digits2_pos m) + e - 53) as e1 eqn:He1.
  assert (Hf : fexp 53 1024 (Z.pos (digits2_pos m) + e) = e1)
    by (unfold fexp, emin; lia).
  rewrite Hf.
  destruct (shl_align_spec m e e1 ltac:(lia)) as [Hm1 He1'].
  destruct (shl_align m e e1) as [m1 e1'] eqn:E. simpl in Hm1, He1'. subst e1'.
  assert (Hp1 : 2 ^ (53 - 1)
                = 2 ^ (Z.pos (digits2_pos m) - 1) * 2 ^ (e - e1)).
  { rewrite <- Z.pow_add_r by lia. f_equal. lia. }
  assert (Hp2 : 2 ^ 53 = 2 ^ Z.pos (digits2_pos m) * 2 ^ (e - e1)).
  { rewrite <- Z.pow_add_r by lia. f_equal. lia. }
  assert (Hpos : 0 < 2 ^ (e - e1)) by (apply Z.pow_pos_nonneg; lia).
  assert (Hd1 : Z.pos (digits2_pos m1) = 53).
  { apply digits2_pos_unique. rewrite Hm1, Hp1, Hp2.
    split; [apply Z.mul_le_mono_nonneg_r; lia
           | apply Z.mul_lt_mono_pos_r; [exact Hpos | exact Hhi]]. }
  exists m1, e1. split; [apply binary_round_aux_exact; [exact Hd1 | lia]|].
  split; [reflexivity|]. split; [lia|]. split; [exact Hm1|].
  pose proof (digits2_pos_bounds m1) as [_ H1]. rewrite Hd1 in H1. exact H1.
Qed.

Lemma digits2_pos_le_53 p : Z.pos p < 2 ^ 53 -> Z.pos (digits2_pos p) <= 53.
Proof.
  intros Hp.
  destruct (Z.le_gt_cases (Z.pos (digits2_pos p)) 53) as [?|?]; [assumption|].
  pose proof (digits2_pos_bounds p) as [Hlo _].
  assert (2 ^ 53 <= 2 ^ (Z.pos (digits2_pos p) - 1))
    by (apply Z.pow_le_mono_r; lia). lia.
Qed.

Lemma SF_of_Z_exact z :
  0 < Z.abs z < 2 ^ 53 ->
  exists m e,
    SF_of_Z 53 1024 z = S754_finite (z <? 0) m e /\
    -52 <= e <= 0 /\ Z.pos m = Z.abs z * 2 ^ (- e) /\ Z.pos m < 2 ^ 53.
Proof.
  intros Hz. unfold SF_of_Z, binary_normalize.
  assert (He0 : -1000 <= 0 <= 900) by lia.
  destruct z as [|p|p]; [simpl in Hz; lia| |]; simpl Z.abs in *.
  - destruct (binary_round_exact false p 0 (proj2 Hz) He0)
      as (m & e & -> & He & Hle & Hm & Hb).
    pose proof (digits2_pos_le_53 p (proj2 Hz)).
    exists m, e. split; [reflexivity|].
    split; [lia|]. split; [|exact Hb].
    rewrite Hm. do 2 f_equal.
  - destruct (binary_round_exact true p 0 (proj2 Hz) He0)
      as (m & e & -> & He & Hle & Hm & Hb).
    pose proof (digits2_pos_le_53 p (proj2 Hz)).
    exists m, e. split; [reflexivity|].
    split; [lia|]. split; [|exact Hb].
    rewrite Hm. do 2 f_equal.
Qed.

Lemma SF_trunc_exact s m e k :
  e <= 0 -> Z.pos m = k * 2 ^ (- e) ->
  SF_trunc (S754_finite s m e) = cond_Zopp s k.
Proof.
  intros He Hm. unfold SF_trunc. f_equal.
  destruct e as [|p|p]; [| lia |].
  - simpl in Hm. lia.
  - simpl Z.opp in Hm. rewrite Hm. apply Z.div_mul.
    apply Z.pow_nonzero; lia.
Qed.

Lemma fmod_double_exact a b :
  Z.abs a < 2 ^ 53 -> 0 < Z.abs b < 2 ^ 53 ->
  SF_trunc (SFfmod 53 1024 (SF_of_Z 53 1024 a) (SF_of_Z 53 1024 b))
    = Z.rem a b.
Proof.
  intros Ha Hb.
  destruct (SF_of_Z_exact b Hb) as (mb & eb & -> & Heb & Hmb & Hbb).
  destruct (Z.eq_dec a 0) as [->|Hnz].
  { reflexivity. }
  destruct (SF_of_Z_exact a ltac:(lia)) as (ma & ea & -> & Hea & Hma & Hba).
  unfold SFfmod.
  remember (Z.min ea eb) as e eqn:He.
  assert (HX : Z.pos ma * 2 ^ (ea - e) = Z.abs a * 2 ^ (- e)).
  { rewrite Hma, <- Z.mul_assoc, <- Z.pow_add_r by lia. do 2 f_equal. lia. }
  assert (HY : Z.pos mb * 2 ^ (eb - e) = Z.abs b * 2 ^ (- e)).
  { rewrite Hmb, <- Z.mul_assoc, <- Z.pow_add_r by lia. do 2 f_equal. lia. }
  assert (Hpe : 0 < 2 ^ (- e)) by (apply Z.pow_pos_nonneg; lia).
  rewrite HX, HY, Z.mul_mod_distr_r by lia.
  remember (Z.abs a mod Z.abs b) as k eqn:Hk.
  assert (Hkb : 0 <= k < Z.abs b) by (subst k; apply Z.mod_pos_bound; lia).
  assert (Hka : k <= Z.abs a) by (subst k; apply Z.mod_le; lia).
  assert (Hrem : Z.rem a b = cond_Zopp (a <? 0) k).
  { rewrite Z.rem_mod, <- Hk by lia.
    destruct a; simpl; lia. }
  rewrite Hrem.
  destruct (Z.eq_dec k 0) as [->|Hk0].
  { simpl. destruct (a <? 0); reflexivity. }
  assert (Hr : 0 < k * 2 ^ (- e)) by (apply Z.mul_pos_pos; lia).
  assert (Hrb : k * 2 ^ (- e) < 2 ^ 53).
  { destruct (Z.min_spec ea eb) as [[_ E]|[_ E]]; rewrite <- He in E; rewrite E.
    - apply Z.le_lt_trans with (Z.pos ma); [|exact Hba].
      rewrite Hma. apply Z.mul_le_mono_nonneg_r; lia.
    - apply Z.lt_trans with (Z.pos mb); [|exact Hbb].
      rewrite Hmb. apply Z.mul_lt_mono_pos_r; lia. }
  assert (Hnorm : binary_normalize 53 1024
                    (cond_Zopp (a <? 0) (k * 2 ^ (- e))) e (a <? 0)
                  = binary_round 53 1024 (a <? 0) (Z.to_pos (k * 2 ^ (- e))) e).
  { destruct (k * 2 ^ (- e)) as [|p|p] eqn:E; [lia| |lia].
    destruct (a <? 0); reflexivity. }
  rewrite Hnorm.
  destruct (binary_round_exact (a <? 0) (Z.to_pos (k * 2 ^ (- e))) e)
    as (m' & e' & -> & He' & Hle & Hm' & Hb').
  { rewrite Z2Pos.id by lia. exact Hrb. }
  { destruct (Z.min_spec ea eb) as [[_ E]|[_ E]]; lia. }
  apply SF_trunc_exact; [destruct (Z.min_spec ea eb) as [[_ E]|[_ E]]; lia|].
  rewrite Hm', Z2Pos.id by lia.
  rewrite <- Z.mul_assoc, <- Z.pow_add_r
    by (destruct (Z.min_spec ea eb) as [[_ E]|[_ E]]; lia).
  do 2 f_equal. lia.
Qed.

Lemma in_range_bounds T z :
  in_range T z = true ->
  match T with
  | Byte => 0 <= z < 2 ^ 8
  | Char => - 2 ^ 7 <= z < 2 ^ 7
  | Short => - 2 ^ 15 <= z < 2 ^ 15
  | Int => - 2 ^ 31 <= z < 2 ^ 31
  | Long => - 2 ^ 63 <= z < 2 ^ 63
  | Bool => 0 <= z < 2
  | Float | Double => False
  end.
Proof.
  destruct T; simpl; try discriminate;
    rewrite andb_true_iff, Z.leb_le, Z.ltb_lt; auto.
Qed.

Lemma in_range_intro T z :
  match T with
  | Byte => 0 <= z < 2 ^ 8
  | Char => - 2 ^ 7 <= z < 2 ^ 7
  | Short => - 2 ^ 15 <= z < 2 ^ 15
  | Int => - 2 ^ 31 <= z < 2 ^ 31
  | Long => - 2 ^ 63 <= z < 2 ^ 63
  | Bool => 0 <= z < 2
  | Float | Double => False
  end -> in_range T z = true.
Proof.
  destruct T; simpl; try tauto;
    rewrite andb_true_iff, Z.leb_le, Z.ltb_lt; auto.
Qed.

Lemma static_cast_in_range T z :
  isIntegralType T false = true -> in_range T z = true ->
  static_cast T (CInt z) = CInt z.
Proof.
  intros HT Hz. apply in_range_bounds in Hz.
  destruct T; try discriminate; simpl; unfold wrap; f_equal.
  - apply Z.mod_small. lia.
  - rewrite Z.mod_small; lia.
  - rewrite Z.mod_small; lia.
  - rewrite Z.mod_small; lia.
  - rewrite Z.mod_small; lia.
Qed.

Lemma rem_in_range T a b :
  isIntegralType T false = true -> in_range T a = true -> b <> 0 ->
  in_range T (Z.rem a b) = true.
Proof.
  intros HT Ha Hb. apply in_range_bounds in Ha. apply in_range_intro.
  assert (Hr : Z.abs (Z.rem a b) <= Z.abs a).
  { rewrite Z.rem_mod by exact Hb. rewrite Z.abs_mul.
    assert (0 <= Z.abs a mod Z.abs b <= Z.abs a).
    { split; [apply Z.mod_pos_bound; lia | apply Z.mod_le; lia]. }
    rewrite (Z.abs_eq (_ mod _)) by lia.
    destruct a; simpl Z.sgn; simpl Z.abs in *; lia. }
  assert (Hs : 0 <= a -> 0 <= Z.rem a b) by (intros; apply Z.rem_nonneg; lia).
  assert (Hs' : a <= 0 -> Z.rem a b <= 0) by (intros; apply Z.rem_nonpos; lia).
  destruct T; try discriminate; lia.
Qed.

Lemma std_fmod_integer T a b :
  isIntegralType T false = true ->
  in_range T a = true -> in_range T b = true ->
  Z.abs a < 2 ^ 53 -> Z.abs b < 2 ^ 53 -> b <> 0 ->
  std_fmod T (CInt a) (CInt b) = CInt (Z.rem a b).
Proof.
  intros HT Ha Hb Ha53 Hb53 Hnz.
  pose proof (rem_in_range T a b HT Ha Hnz) as Hr.
  pose proof (static_cast_in_range T _ HT Hr) as Hc.
  assert (Hd : static_cast T
                 (CFloat (SFfmod 53 1024 (to_float 53 1024 (CInt a))
                                         (to_float 53 1024 (CInt b))))
               = static_cast T (CInt (Z.rem a b))).
  { simpl to_float. rewrite <- (fmod_double_exact a b) by lia.
    destruct T; try discriminate; reflexivity. }
  destruct T; try discriminate; (etrans; [exact Hd | exact Hc]).
Qed.

Lemma small_type_bound T z :
  In T [Byte; Char; Short; Int] -> in_range T z = true -> Z.abs z < 2 ^ 53.
Proof.
  intros HT Hz. apply in_range_bounds in Hz.
  simpl in HT. destruct HT as [<-|[<-|[<-|[<-|[]]]]]; lia.
Qed.

Lemma small_type_integral T :
  In T [Byte; Char; Short; Int] -> isIntegralType T false = true.
Proof. simpl. intros [<-|[<-|[<-|[<-|[]]]]]; reflexivity. Qed.

Lemma fmod_value_integer T a b :
  isIntegralType T false = true ->
  in_range T a = true -> in_range T b = true ->
  Z.abs a < 2 ^ 53 -> Z.abs b < 2 ^ 53 -> b <> 0 ->
  fmod_value T T (CInt a) (CInt b) = CInt (Z.rem a b).
Proof.
  intros HT Ha Hb Ha53 Hb53 Hnz. unfold fmod_value.
  rewrite !static_cast_in_range by assumption.
  rewrite std_fmod_integer by assumption.
  apply static_cast_in_range; [exact HT|].
  apply rem_in_range; assumption.
Qed.

(** X10: on the integer types of at most 32 bits the element function of
    both kernels (cast to the compute type, [std::fmod], cast back) is the
    truncating remainder of C: the detour of [std::fmod] through [double]
    loses nothing.  The result is smaller than the divisor in magnitude and
    has the sign of the dividend. *)
Theorem fmod_value_small_integer_exact T a b :
  In T [Byte; Char; Short; Int] ->
  in_range T a = true -> in_range T b = true -> b <> 0 ->
  fmod_value T T (CInt a) (CInt b) = CInt (Z.rem a b) /\
  Z.abs (Z.rem a b) < Z.abs b /\
  (Z.rem a b <> 0 -> Z.sgn (Z.rem a b) = Z.sgn a).
Proof.
  intros HT Ha Hb Hnz. split; [|split].
  - apply fmod_value_integer; try assumption.
    + apply small_type_integral, HT.
    + apply (small_type_bound T); assumption.
    + apply (small_type_bound T); assumption.
  - apply Z.rem_bound_abs, Hnz.
  - apply Z.rem_sign_nz, Hnz.
Qed.

(** X11: on [int64_t] the element function is the truncating remainder as
    long as both operands are below 2^53 in magnitude, and not beyond:
    the operands are rounded to [double] first, so some pair of [int64_t]
    values gives another result (INT64_MAX and 3 give 2, not 1). *)
Theorem fmod_value_long_window :
  (forall a b,
      Z.abs a < 2 ^ 53 -> Z.abs b < 2 ^ 53 -> b <> 0 ->
      fmod_value Long Long (CInt a) (CInt b) = CInt (Z.rem a b)) /\
  (exists a b,
      in_range Long a = true /\ in_range Long b = true /\ b <> 0 /\
      fmod_value Long Long (CInt a) (CInt b) <> CInt (Z.rem a b)).
Proof.
  split.
  - intros a b Ha Hb Hnz. apply fmod_value_integer; try assumption;
      try reflexivity; apply in_range_intro; lia.
  - exists (2 ^ 63 - 1), 3. repeat split; try reflexivity; try lia.
    vm_compute. discriminate.
Qed.

Lemma in_range_promote A B z :
  isIntegralType (promoteTypes A B) true = true ->
  (in_range A z = true -> in_range (promoteTypes A B) z = true) /\
  (in_range B z = true -> in_range (promoteTypes A B) z = true).
Proof.
  intros HT. split; intros Hz; apply in_range_bounds in Hz;
    apply in_range_intro; destruct A, B; simpl in *;
    try discriminate; try lia.
Qed.

Lemma promote_integral_inv A B :
  isIntegralType (promoteTypes A B) true = true ->
  isIntegralType A true = true /\ isIntegralType B true = true.
Proof. destruct A, B; simpl; auto. Qed.

Lemma load_int_valued T d i :
  isIntegralType T true = true ->
  Forall (int_valued T) d -> int_valued T (load d i).
Proof.
  intros HT Hd. unfold load. destruct (d !! i) as [v|] eqn:E; simpl.
  - rewrite Forall_forall in Hd. apply Hd. eapply list_elem_of_lookup_2, E.
  - exists 0. split; [reflexivity|]. destruct T; try discriminate; reflexivity.
Qed.

Local Close Scope Z_scope.

Section More.

Variable canCast : ScalarType -> ScalarType -> bool.
Variable resize_ok : Tensor -> list nat -> bool.

(** X1: [fmod_Tensor_out] returns exactly when the resize step succeeds,
    the cast is allowed, the common and the output type are real types,
    and, for an integral common type, no output position is matched to a
    zero element of [b]. *)
Theorem fmod_Tensor_out_returns_iff (m : Operands (Tensor * Tensor)) :
  let a := (ins m).1 in
  let b := (ins m).2 in
  let common_type := promoteTypes (scalar_type a) (scalar_type b) in
  let out_type := scalar_type (out m) in
  (exists r, fmod_Tensor_out canCast resize_ok m = Ok tt r) <->
  exists m',
    resize_to_broadcast_target_size resize_ok a b m = Ok tt m' /\
    canCast common_type out_type = true /\
    isRealType common_type = true /\
    isRealType out_type = true /\
    (isIntegralType common_type true = true ->
     forall i, i < numel (out m') ->
       is_zero (operand_b b (sizes (out m')) i) = false).
Proof.
  intros a b common_type out_type. split.
  - intros [r H].
    apply fmod_Tensor_out_Ok in H as (m' & Hr & Hc & Hreal & Hall & _).
    cbv zeta in *. fold a b common_type in Hr, Hc, Hreal, Hall.
    pose proof (resize_to_broadcast_facts _ _ _ _ _ Hr) as (_ & Ht & _).
    rewrite Ht in Hc, Hreal, Hall. fold out_type in Hc, Hreal, Hall.
    apply andb_true_iff in Hreal as [Hrc Hro].
    exists m'. repeat split; try assumption.
    intros Hint i Hi. rewrite Forall_forall in Hall.
    destruct (Hall i) as [v Hv]; [apply elem_of_seq; lia|].
    unfold fmod_elem in Hv. rewrite Hint in Hv. simpl in Hv.
    destruct (is_zero _); [discriminate | reflexivity].
  - intros (m' & Hr & Hc & Hrc & Hro & Hnz).
    pose proof (resize_to_broadcast_facts _ _ _ _ _ Hr) as (_ & Ht & _).
    rewrite fmod_Tensor_out_run. cbv zeta. fold a b. rewrite Hr, Ht.
    fold common_type out_type. rewrite Hc, Hrc, Hro. simpl andb. cbv iota.
    rewrite (proj2 (run_writes_completes _ _ _)); [eauto|].
    apply Forall_forall. intros i Hi. apply elem_of_seq in Hi.
    unfold fmod_elem. destruct (isIntegralType common_type true) eqn:Hint.
    + rewrite (Hnz eq_refl i) by lia. eauto.
    + eauto.
Qed.

(** X2: [fmod_Scalar_out] returns exactly when the resize succeeds, the
    cast is allowed, the common and the output type are real types, and,
    for an integral common type, the extracted scalar is not zero. *)
Theorem fmod_Scalar_out_returns_iff (m : Operands (Tensor * Scalar)) :
  let a := (ins m).1 in
  let b := (ins m).2 in
  let common_type := promote_type_with_scalar (scalar_type a) b in
  let out_type := scalar_type (out m) in
  let val_b := extract_scalar b (get_scalar_dtype b) in
  (exists r, fmod_Scalar_out canCast resize_ok m = Ok tt r) <->
  (exists m', resize_tensor resize_ok (sizes a) m = Ok Error.Ok m') /\
  canCast common_type out_type = true /\
  isRealType common_type = true /\
  isRealType out_type = true /\
  (isIntegralType common_type true = true -> is_zero val_b = false).
Proof.
  intros a b common_type out_type val_b. split.
  - intros [r H].
    apply fmod_Scalar_out_Ok in H as (m' & Hr & Hc & Hrc & Hz & Hro & _).
    cbv zeta in *. fold a b common_type val_b in Hr, Hc, Hrc, Hz.
    pose proof (resize_tensor_ok _ _ _ _ Hr) as (_ & Ht & _).
    rewrite Ht in Hc, Hro. fold out_type in Hc, Hro.
    split; [eauto|]. repeat split; try assumption.
    intros Hint. rewrite Hint in Hz. exact Hz.
  - intros ([m' Hr] & Hc & Hrc & Hro & Hnz).
    pose proof (resize_tensor_ok _ _ _ _ Hr) as (_ & Ht & _).
    rewrite fmod_Scalar_out_run. cbv zeta. fold a b. rewrite Hr, Ht.
    fold common_type out_type val_b. rewrite Hc, Hrc, Hro.
    destruct (isIntegralType common_type true) eqn:Hint.
    + rewrite (Hnz eq_refl). simpl. eauto.
    + simpl. eauto.
Qed.


(** Where a call can end: in the state of the call or of the resize step,
    with a buffer of the same length. *)
Lemma fmod_Tensor_out_final (m : Operands (Tensor * Tensor)) :
  exists m' d,
    final_state (fmod_Tensor_out canCast resize_ok m) = with_data m' d /\
    length d = length (data (out m')) /\
    (m' = m \/
     resize_to_broadcast_target_size resize_ok (ins m).1 (ins m).2 m
       = Ok tt m').
Proof.
  rewrite fmod_Tensor_out_run. cbv zeta.
  destruct (resize_to_broadcast_target_size _ _ _ _) as [[] m'|k s] eqn:Hr.
  - destruct (canCast _ _);
      [|exists m', (data (out m')); rewrite with_data_id; auto].
    destruct (_ && _);
      [|exists m', (data (out m')); rewrite with_data_id; auto].
    eexists m', _. split; [|split; [apply run_writes_length | auto]].
    destruct (run_writes _ _ _).1; reflexivity.
  - apply resize_to_broadcast_abort in Hr as [-> _].
    exists m, (data (out m)). rewrite with_data_id. auto.
Qed.

Lemma fmod_Scalar_out_final (m : Operands (Tensor * Scalar)) :
  exists m' d,
    final_state (fmod_Scalar_out canCast resize_ok m) = with_data m' d /\
    length d = length (data (out m')) /\
    (m' = m \/ resize_tensor resize_ok (sizes (ins m).1) m = Ok Error.Ok m').
Proof.
  rewrite fmod_Scalar_out_run. cbv zeta.
  destruct (resize_tensor_total resize_ok (sizes (ins m).1) m)
    as (err & m' & Hr & Hs).
  rewrite Hr. destruct err.
  - destruct (canCast _ _);
      [|exists m', (data (out m')); rewrite with_data_id; auto].
    destruct (isRealType _);
      [|exists m', (data (out m')); rewrite with_data_id; auto].
    destruct (_ && _);
      [exists m', (data (out m')); rewrite with_data_id; auto|].
    destruct (isRealType _);
      [|exists m', (data (out m')); rewrite with_data_id; auto].
    eexists m', _. split; [reflexivity|].
    split; [apply run_writes_length | auto].
  - exists m, (data (out m)). rewrite with_data_id, Hs by discriminate. auto.
Qed.

(** X3: on every path, return or abort, both kernels leave [out] with the
    type tag it had, keep a buffer of the right length for the shape when
    it had one, and keep the length of the buffer when the shape stays. *)
Theorem out_tag_and_length_kept :
  (forall m : Operands (Tensor * Tensor),
      let s := final_state (fmod_Tensor_out canCast resize_ok m) in
      scalar_type (out s) = scalar_type (out m) /\
      (wf_tensor (out m) -> wf_tensor (out s)) /\
      (sizes (out s) = sizes (out m) ->
       length (data (out s)) = length (data (out m)))) /\
  (forall m : Operands (Tensor * Scalar),
      let s := final_state (fmod_Scalar_out canCast resize_ok m) in
      scalar_type (out s) = scalar_type (out m) /\
      (wf_tensor (out m) -> wf_tensor (out s)) /\
      (sizes (out s) = sizes (out m) ->
       length (data (out s)) = length (data (out m)))).
Proof.
  split; intros m s.
  - destruct (fmod_Tensor_out_final m) as (m' & d & Hf & Hl & Hm').
    subst s. rewrite Hf. unfold wf_tensor, numel. simpl.
    destruct Hm' as [->|Hr]; [rewrite Hl; auto|].
    pose proof (resize_to_broadcast_facts _ _ _ _ _ Hr)
      as (_ & Ht & _ & Hid & Hwf).
    unfold wf_tensor, numel in Hwf. rewrite Hl.
    split; [exact Ht|]. split; [exact Hwf|].
    intros E. rewrite (Hid E). reflexivity.
  - destruct (fmod_Scalar_out_final m) as (m' & d & Hf & Hl & Hm').
    subst s. rewrite Hf. unfold wf_tensor, numel. simpl.
    destruct Hm' as [->|Hr]; [rewrite Hl; auto|].
    pose proof (resize_tensor_wf _ _ _ _ Hr) as Hwf.
    pose proof (resize_tensor_ok _ _ _ _ Hr) as (_ & Ht & Hs & _ & Hid).
    unfold wf_tensor, numel in Hwf. rewrite Hl.
    split; [exact Ht|]. split; [exact Hwf|].
    intros E. rewrite Hid by congruence. reflexivity.
Qed.

(** The buffer of [out] after a run that returns. *)
Lemma fmod_Tensor_out_data (m r : Operands (Tensor * Tensor)) :
  let a := (ins m).1 in
  let b := (ins m).2 in
  let common_type := promoteTypes (scalar_type a) (scalar_type b) in
  let out_type := scalar_type (out m) in
  wf_tensor (out m) ->
  fmod_Tensor_out canCast resize_ok m = Ok tt r ->
  ins r = ins m /\
  scalar_type (out r) = out_type /\
  broadcastShape (sizes a) (sizes b) = Some (sizes (out r)) /\
  data (out r) =
    (fun i => fmod_value common_type out_type
                (operand_a a (sizes (out r)) i)
                (operand_b b (sizes (out r)) i))
      <$> seq 0 (numel (out r)).
Proof.
  intros a b common_type out_type Hwf H.
  apply fmod_Tensor_out_Ok in H as (m' & Hr & _ & _ & Hall & ->).
  cbv zeta in *. fold a b common_type in Hr, Hall |- *.
  pose proof (resize_to_broadcast_facts _ _ _ _ _ Hr)
    as (Hi & Ht & Hb & _ & Hwf').
  specialize (Hwf' Hwf). unfold wf_tensor in Hwf'.
  rewrite Ht in Hall |- *. fold out_type in Hall |- *.
  rewrite run_writes_prefix by (assumption || lia).
  simpl. rewrite drop_ge, app_nil_r by lia.
  repeat split; try assumption.
  apply list_fmap_ext. intros j i Hj. apply lookup_seq in Hj as [-> Hj].
  rewrite Forall_forall in Hall. unfold numel in *. simpl in Hj.
  destruct (Hall (0 + j)) as [v Hv]; [apply elem_of_seq; lia|].
  unfold fmod_elem in Hv |- *.
  destruct (_ && _); [discriminate | reflexivity].
Qed.

(** X4: when [fmod_Tensor_out] returns, [out] has the broadcast shape of
    [a] and [b] and its type tag, the inputs are as they were, and the
    buffer holds at every position the element function applied to the
    operands matched to it: nothing of the old contents is left. *)
Theorem fmod_Tensor_out_result (m r : Operands (Tensor * Tensor)) :
  let a := (ins m).1 in
  let b := (ins m).2 in
  let common_type := promoteTypes (scalar_type a) (scalar_type b) in
  let out_type := scalar_type (out m) in
  wf_tensor (out m) ->
  fmod_Tensor_out canCast resize_ok m = Ok tt r ->
  ins r = ins m /\
  scalar_type (out r) = out_type /\
  broadcastShape (sizes a) (sizes b) = Some (sizes (out r)) /\
  data (out r) =
    (fun i => fmod_value common_type out_type
                (operand_a a (sizes (out r)) i)
                (operand_b b (sizes (out r)) i))
      <$> seq 0 (numel (out r)).
Proof. exact (fmod_Tensor_out_data m r). Qed.

Lemma fmod_Scalar_out_data (m r : Operands (Tensor * Scalar)) :
  let a := (ins m).1 in
  let b := (ins m).2 in
  let common_type := promote_type_with_scalar (scalar_type a) b in
  let out_type := scalar_type (out m) in
  let val_b := extract_scalar b (get_scalar_dtype b) in
  wf_tensor (out m) -> wf_tensor a ->
  fmod_Scalar_out canCast resize_ok m = Ok tt r ->
  ins r = ins m /\
  scalar_type (out r) = out_type /\
  sizes (out r) = sizes a /\
  data (out r) =
    (fun val_a => fmod_value common_type out_type val_a val_b) <$> data a.
Proof.
  intros a b common_type out_type val_b Hwf Hwfa H.
  apply fmod_Scalar_out_Ok in H as (m' & Hr & _ & _ & _ & _ & ->).
  cbv zeta in *. fold a b common_type val_b in Hr |- *.
  pose proof (resize_tensor_wf _ _ _ _ Hr Hwf) as Hwf'.
  pose proof (resize_tensor_ok _ _ _ _ Hr) as (Hi & Ht & Hs & _).
  unfold wf_tensor, numel in Hwf', Hwfa |- *.
  rewrite Ht. fold out_type.
  rewrite run_writes_prefix
    by (unfold numel; lia || (apply Forall_forall; eauto)).
  simpl. rewrite drop_ge, app_nil_r by (unfold numel; lia).
  repeat split; try assumption.
  unfold numel. rewrite Hs, <- Hwfa.
  apply list_eq. intros i. rewrite !list_lookup_fmap.
  destruct (decide (i < length (data a))) as [Hlt|Hge].
  - rewrite lookup_seq_lt by exact Hlt. simpl. unfold load.
    destruct (lookup_lt_is_Some_2 (data a) i Hlt) as [v Hv].
    rewrite Hv. reflexivity.
  - rewrite lookup_seq_ge, lookup_ge_None_2 by lia. reflexivity.
Qed.

(** X5: when [fmod_Scalar_out] returns, [out] has the shape of [a] and
    its buffer is the buffer of [a] mapped through the element function
    with the extracted scalar as divisor. *)
Theorem fmod_Scalar_out_result (m r : Operands (Tensor * Scalar)) :
  let a := (ins m).1 in
  let b := (ins m).2 in
  let common_type := promote_type_with_scalar (scalar_type a) b in
  let out_type := scalar_type (out m) in
  let val_b := extract_scalar b (get_scalar_dtype b) in
  wf_tensor (out m) -> wf_tensor a ->
  fmod_Scalar_out canCast resize_ok m = Ok tt r ->
  ins r = ins m /\
  scalar_type (out r) = out_type /\
  sizes (out r) = sizes a /\
  data (out r) =
    (fun val_a => fmod_value common_type out_type val_a val_b) <$> data a.
Proof. exact (fmod_Scalar_out_data m r). Qed.



(** Index arithmetic: an operand of the shape of [out] is read at the
    position written. *)
Lemma shape_numel_app s1 s2 :
  shape_numel (s1 ++ s2) = shape_numel s1 * shape_numel s2.
Proof.
  unfold shape_numel. induction s1 as [|d s1 IH]; simpl; [lia|].
  rewrite IH. lia.
Qed.

Lemma shape_numel_reverse s : shape_numel (reverse s) = shape_numel s.
Proof.
  induction s as [|d s IH]; [reflexivity|].
  rewrite reverse_cons, shape_numel_app, IH. unfold shape_numel. simpl. lia.
Qed.

Lemma linearize_delinearize rs i :
  i < shape_numel rs ->
  linearize_access_indexes (delinearize_index i rs) rs = i.
Proof.
  revert i. induction rs as [|d ds IH]; intros i Hi.
  - unfold shape_numel in Hi. simpl in *. lia.
  - change (shape_numel (d :: ds)) with (d * shape_numel ds) in Hi.
    simpl. assert (Hd : d <> 0) by (intros ->; lia).
    rewrite IH.
    2: { apply Nat.Div0.div_lt_upper_bound. lia. }
    destruct (Nat.eqb_spec d 1) as [->|Hne].
    + rewrite Nat.div_1_r. lia.
    + pose proof (Nat.div_mod_eq i d). lia.
Qed.

Lemma broadcast_index_same s i :
  i < shape_numel s -> broadcast_index i s s = i.
Proof.
  intros Hi. unfold broadcast_index. apply linearize_delinearize.
  rewrite shape_numel_reverse. exact Hi.
Qed.

Lemma broadcastShape_same s : broadcastShape s s = Some s.
Proof.
  unfold broadcastShape, pad_shape.
  rewrite Nat.max_id, Nat.sub_diag. simpl.
  apply mapM_Some. induction s as [|d s IH]; simpl; constructor; [|exact IH].
  simpl. unfold broadcast_dim. rewrite Nat.eqb_refl, Nat.max_id. reflexivity.
Qed.

(** X6: on two tensors of one shape [fmod_Tensor_out] does not
    broadcast: when it returns, [out] has that shape and its buffer is
    the element function zipped over the two input buffers. *)
Theorem fmod_Tensor_out_same_shape (m r : Operands (Tensor * Tensor)) :
  let a := (ins m).1 in
  let b := (ins m).2 in
  let common_type := promoteTypes (scalar_type a) (scalar_type b) in
  let out_type := scalar_type (out m) in
  sizes a = sizes b ->
  wf_tensor a -> wf_tensor b -> wf_tensor (out m) ->
  fmod_Tensor_out canCast resize_ok m = Ok tt r ->
  sizes (out r) = sizes a /\
  data (out r)
    = zip_with (fmod_value common_type out_type) (data a) (data b).
Proof.
  intros a b common_type out_type Hs Hwa Hwb Hwf H.
  apply fmod_Tensor_out_Ok in H as (m' & Hr & _ & _ & Hall & ->).
  cbv zeta in *. fold a b common_type in Hr, Hall |- *.
  pose proof (resize_to_broadcast_facts _ _ _ _ _ Hr)
    as (_ & Ht & Hb & _ & Hwf').
  specialize (Hwf' Hwf).
  rewrite <- Hs, broadcastShape_same in Hb. injection Hb as Hb.
  unfold wf_tensor, numel in *. rewrite Ht in Hall |- *.
  fold out_type in Hall |- *. simpl sizes. simpl data.
  rewrite <- Hb in *. rewrite <- Hs in *.
  rewrite run_writes_prefix by (assumption || lia).
  simpl. rewrite drop_ge, app_nil_r by lia.
  split; [reflexivity|].
  apply list_eq. intros i.
  rewrite list_lookup_fmap, lookup_zip_with.
  destruct (decide (i < shape_numel (sizes a))) as [Hlt|Hge].
  - rewrite lookup_seq_lt by exact Hlt. simpl.
    unfold operand_a, operand_b. rewrite <- Hs.
    rewrite !broadcast_index_same by exact Hlt. unfold load.
    destruct (lookup_lt_is_Some_2 (data a) i ltac:(lia)) as [va Hva].
    destruct (lookup_lt_is_Some_2 (data b) i ltac:(lia)) as [vb Hvb].
    rewrite Hva, Hvb. simpl.
    rewrite Forall_forall in Hall.
    destruct (Hall i) as [v Hv]; [apply elem_of_seq; lia|].
    unfold fmod_elem, operand_a, operand_b in Hv. rewrite <- Hs in Hv.
    rewrite !broadcast_index_same in Hv by exact Hlt. unfold load in Hv.
    rewrite Hva, Hvb in Hv. simpl in Hv. unfold fmod_elem.
    destruct (_ && _); [discriminate | reflexivity].
  - rewrite lookup_seq_ge, (lookup_ge_None_2 (data a)) by lia. reflexivity.
Qed.

(** X7: [fmod_Scalar_out] is all or nothing: whatever makes it abort, no
    element has been stored (the state is that of the call or of the
    resize).  [fmod_Tensor_out] stores nothing before any abort other
    than DomainViolation. *)
Theorem aborts_store_nothing :
  (forall (m s : Operands (Tensor * Scalar)) k,
      fmod_Scalar_out canCast resize_ok m = Abort k s ->
      s = m \/ resize_tensor resize_ok (sizes (ins m).1) m = Ok Error.Ok s) /\
  (forall (m s : Operands (Tensor * Tensor)) k,
      fmod_Tensor_out canCast resize_ok m = Abort k s ->
      k <> DomainViolation ->
      s = m \/
      resize_to_broadcast_target_size resize_ok (ins m).1 (ins m).2 m
        = Ok tt s).
Proof.
  split.
  - intros m s k. rewrite fmod_Scalar_out_run. cbv zeta.
    destruct (resize_tensor_total resize_ok (sizes (ins m).1) m)
      as (err & m' & Hr & Hs).
    rewrite Hr. destruct err.
    + destruct (canCast _ _); [|intros [= <- <-]; auto].
      destruct (isRealType _); [|intros [= <- <-]; auto].
      destruct (_ && _); [intros [= <- <-]; auto|].
      destruct (isRealType _); [discriminate | intros [= <- <-]; auto].
    + intros [= <- <-]. left. apply Hs. discriminate.
  - intros m s k. rewrite fmod_Tensor_out_run. cbv zeta.
    destruct (resize_to_broadcast_target_size _ _ _ _) as [[] m'|k' s'] eqn:Hr.
    + destruct (canCast _ _); [|intros [= <- <-]; auto].
      destruct (_ && _); [|intros [= <- <-]; auto].
      destruct (run_writes _ _ _).1; [discriminate|].
      intros [= <- <-] Hk. congruence.
    + intros [= <- <-] _. left.
      apply resize_to_broadcast_abort in Hr as [-> _]. reflexivity.
Qed.

(** X8: DomainViolation is raised for nothing else than a zero divisor in
    the integral domain: when either kernel fails with it, the common type
    is integral and some output position is matched to a zero element of
    [b] (the extracted scalar is zero, in the scalar kernel). *)
Theorem domain_violation_only_on_zero_divisor :
  (forall (m s : Operands (Tensor * Tensor)),
      let a := (ins m).1 in
      let b := (ins m).2 in
      let common_type := promoteTypes (scalar_type a) (scalar_type b) in
      fmod_Tensor_out canCast resize_ok m = Abort DomainViolation s ->
      isIntegralType common_type true = true /\
      exists m' i,
        resize_to_broadcast_target_size resize_ok a b m = Ok tt m' /\
        i < numel (out m') /\
        is_zero (operand_b b (sizes (out m')) i) = true) /\
  (forall (m s : Operands (Tensor * Scalar)),
      let a := (ins m).1 in
      let b := (ins m).2 in
      let common_type := promote_type_with_scalar (scalar_type a) b in
      fmod_Scalar_out canCast resize_ok m = Abort DomainViolation s ->
      isIntegralType common_type true = true /\
      is_zero (extract_scalar b (get_scalar_dtype b)) = true).
Proof.
  split.
  - intros m s a b common_type. rewrite fmod_Tensor_out_run. cbv zeta.
    fold a b common_type.
    destruct (resize_to_broadcast_target_size _ _ _ _) as [[] m'|k' s'] eqn:Hr.
    + destruct (canCast _ _); [|discriminate].
      destruct (_ && _); [|discriminate].
      destruct (run_writes _ _ _).1 eqn:E; [discriminate|]. intros _.
      assert (Hex : Exists (fun i => ~ is_Some
                      (fmod_elem common_type (scalar_type (out m'))
                         (operand_a a (sizes (out m')) i)
                         (operand_b b (sizes (out m')) i)))
                      (seq 0 (numel (out m')))).
      { apply not_Forall_Exists; [intros x; apply _|].
        intros HF. apply run_writes_completes with (d := data (out m')) in HF.
        congruence. }
      apply Exists_exists in Hex as (i & Hi & Hn). apply elem_of_seq in Hi.
      unfold fmod_elem in Hn.
      destruct (isIntegralType common_type true) eqn:Hint;
        [|exfalso; apply Hn; simpl; eauto].
      destruct (is_zero _) eqn:Hz; [|exfalso; apply Hn; simpl; eauto].
      split; [reflexivity|]. exists m', i. repeat split; [lia | exact Hz].
    + intros [= -> ->].
      apply resize_to_broadcast_abort in Hr as [_ [?|?]]; discriminate.
  - intros m s a b common_type. rewrite fmod_Scalar_out_run. cbv zeta.
    fold a b common_type.
    destruct (resize_tensor_total resize_ok (sizes a) m)
      as (err & m' & Hr & _).
    rewrite Hr. destruct err; [|discriminate].
    destruct (canCast _ _); [|discriminate].
    destruct (isRealType common_type); [|discriminate].
    destruct (isIntegralType common_type true);
      [|simpl; destruct (isRealType _); discriminate].
    destruct (is_zero _); [auto|]. simpl.
    destruct (isRealType _); discriminate.
Qed.

(** X9: empty tensors.  When [out] has no element after the resize and
    the cast and type checks pass, [fmod_Tensor_out] returns at once and
    never looks at a divisor.  [fmod_Scalar_out] on an empty [a] returns
    likewise, except that a zero scalar with an integral common type still
    fails with DomainViolation: its check does not depend on the loop. *)
Theorem empty_output_returns_untouched :
  (forall m m' : Operands (Tensor * Tensor),
      let a := (ins m).1 in
      let b := (ins m).2 in
      let common_type := promoteTypes (scalar_type a) (scalar_type b) in
      let out_type := scalar_type (out m) in
      resize_to_broadcast_target_size resize_ok a b m = Ok tt m' ->
      numel (out m') = 0 ->
      canCast common_type out_type = true ->
      isRealType common_type = true ->
      isRealType out_type = true ->
      fmod_Tensor_out canCast resize_ok m = Ok tt m') /\
  (forall m m' : Operands (Tensor * Scalar),
      let a := (ins m).1 in
      let b := (ins m).2 in
      let common_type := promote_type_with_scalar (scalar_type a) b in
      let out_type := scalar_type (out m) in
      resize_tensor resize_ok (sizes a) m = Ok Error.Ok m' ->
      numel a = 0 ->
      canCast common_type out_type = true ->
      isRealType common_type = true ->
      isRealType out_type = true ->
      fmod_Scalar_out canCast resize_ok m =
        if isIntegralType common_type true
           && is_zero (extract_scalar b (get_scalar_dtype b))
        then Abort DomainViolation m' else Ok tt m').
Proof.
  split.
  - intros m m' a b common_type out_type Hr Hn Hc Hrc Hro.
    pose proof (resize_to_broadcast_facts _ _ _ _ _ Hr) as (_ & Ht & _).
    rewrite fmod_Tensor_out_run. cbv zeta. fold a b.
    rewrite Hr, Ht. fold common_type out_type.
    rewrite Hc, Hrc, Hro, Hn. simpl. rewrite with_data_id. reflexivity.
  - intros m m' a b common_type out_type Hr Hn Hc Hrc Hro.
    pose proof (resize_tensor_ok _ _ _ _ Hr) as (_ & Ht & Hs & _).
    rewrite fmod_Scalar_out_run. cbv zeta. fold a b.
    rewrite Hr, Ht. fold common_type out_type.
    rewrite Hc, Hrc, Hro. unfold numel in *. rewrite Hs, Hn. simpl.
    rewrite with_data_id. reflexivity.
Qed.

(** X12: on integer tensors whose common type has at most 32 bits, with
    [out] of that type, every element [fmod_Tensor_out] returns is the
    truncating remainder of the two integers matched to its position, and
    the divisor there is not zero. *)
Theorem fmod_Tensor_out_small_integers (m r : Operands (Tensor * Tensor)) :
  let a := (ins m).1 in
  let b := (ins m).2 in
  let T := promoteTypes (scalar_type a) (scalar_type b) in
  In T [Byte; Char; Short; Int] ->
  scalar_type (out m) = T ->
  well_typed a -> well_typed b -> wf_tensor (out m) ->
  fmod_Tensor_out canCast resize_ok m = Ok tt r ->
  forall i, i < numel (out r) ->
    exists za zb,
      operand_a a (sizes (out r)) i = CInt za /\
      operand_b b (sizes (out r)) i = CInt zb /\
      zb <> 0%Z /\
      data (out r) !! i = Some (CInt (Z.rem za zb)).
Proof.
  intros a b T HT Ho Hta Htb Hwf H i Hi.
  pose proof (small_type_integral T HT) as HTi.
  assert (HTb : isIntegralType T true = true)
    by (destruct T; try discriminate; reflexivity).
  destruct (promote_integral_inv _ _ HTb) as [Hia Hib].
  destruct (load_int_valued _ (data a)
              (broadcast_index i (sizes (out r)) (sizes a)) Hia Hta)
    as (za & Hza & Hra).
  destruct (load_int_valued _ (data b)
              (broadcast_index i (sizes (out r)) (sizes b)) Hib Htb)
    as (zb & Hzb & Hrb).
  apply (in_range_promote (scalar_type a) (scalar_type b) za HTb) in Hra.
  apply (in_range_promote (scalar_type a) (scalar_type b) zb HTb) in Hrb.
  fold T in Hra, Hrb.
  pose proof (fmod_Tensor_out_Ok _ _ _ _ H) as (m' & _ & _ & _ & Hall & Er).
  cbv zeta in Hall, Er. fold a b T in Hall, Er.
  destruct (fmod_Tensor_out_data m r Hwf H) as (_ & _ & _ & Hd).
  fold a b T in Hd. rewrite Ho in Hd.
  assert (Hsz : sizes (out r) = sizes (out m')) by (rewrite Er; reflexivity).
  assert (Hnz : zb <> 0%Z).
  { rewrite Forall_forall in Hall.
    destruct (Hall i) as [v Hv].
    { apply elem_of_seq. unfold numel in *. rewrite <- Hsz. lia. }
    unfold fmod_elem in Hv. rewrite HTb in Hv. rewrite <- Hsz in Hv.
    unfold operand_b in Hv. rewrite Hzb in Hv. simpl in Hv.
    destruct (Z.eqb_spec zb 0); [discriminate | assumption]. }
  exists za, zb. split; [exact Hza|]. split; [exact Hzb|]. split; [exact Hnz|].
  rewrite Hd, list_lookup_fmap, lookup_seq_lt by exact Hi. simpl.
  unfold operand_a, operand_b. rewrite Hza, Hzb. f_equal.
  apply fmod_value_integer; try assumption;
    apply (small_type_bound T); assumption.
Qed.

Lemma broadcastShape_scalar s :
  Forall (fun d => 1 <= d) s -> broadcastShape s [] = Some s.
Proof.
  intros Hs. unfold broadcastShape, pad_shape. simpl length.
  rewrite Nat.max_0_r, Nat.sub_diag, Nat.sub_0_r, app_nil_r. simpl.
  apply mapM_Some. induction Hs as [|d s Hd Hs IH]; simpl; constructor.
  - simpl. unfold broadcast_dim. rewrite Nat.eqb_refl, orb_true_r.
    f_equal. lia.
  - exact IH.
Qed.

Lemma shape_numel_pos s : Forall (fun d => 1 <= d) s -> 1 <= shape_numel s.
Proof.
  unfold shape_numel. induction 1 as [|d s Hd Hs IH]; simpl; [lia|nia].
Qed.

Lemma broadcast_index_scalar i s : broadcast_index i s [] = 0.
Proof.
  unfold broadcast_index. simpl.
  destruct (delinearize_index i (reverse s)); reflexivity.
Qed.

Lemma run_writes_ext g g' idxs d :
  (forall i, i ∈ idxs -> g i = g' i) ->
  run_writes g idxs d = run_writes g' idxs d.
Proof.
  revert d. induction idxs as [|i idxs IH]; intros d Hg; [reflexivity|].
  simpl. rewrite <- (Hg i) by left.
  destruct (g i); [|reflexivity]. apply IH. intros j Hj. apply Hg. by right.
Qed.

Lemma resize_tensor_out {I J} new_sizes (s s' : Operands I) (t : Operands J) e :
  resize_tensor resize_ok new_sizes s = Ok e s' ->
  out t = out s ->
  resize_tensor resize_ok new_sizes t = Ok e (mkOperands (ins t) (out s')).
Proof.
  unfold resize_tensor. intros H E. rewrite E.
  destruct (decide _).
  - injection H as <- <-. rewrite <- E. destruct t; reflexivity.
  - destruct (resize_ok _ _); injection H as <- <-; simpl.
    + reflexivity.
    + rewrite <- E. destruct t; reflexivity.
Qed.

(** X13: the scalar kernel agrees with the tensor kernel on a
    0-dimensional divisor.  For [a] without an empty dimension and an
    output of a real type, when both promotions give the same common type,
    [fmod_Scalar_out] on [(a, b)] and [fmod_Tensor_out] on [a] and the
    0-dimensional tensor holding [b] end the same way (return, or abort
    of the same kind) with the same [out]. *)
Theorem fmod_Scalar_out_as_Tensor_out (a o : Tensor) (b : Scalar) :
  Forall (fun d => 1 <= d) (sizes a) ->
  isRealType (scalar_type o) = true ->
  promote_type_with_scalar (scalar_type a) b
    = promoteTypes (scalar_type a) (get_scalar_dtype b) ->
  match fmod_Tensor_out canCast resize_ok
          (mkOperands (a, scalar_as_tensor b) o),
        fmod_Scalar_out canCast resize_ok (mkOperands (a, b) o) with
  | Ok _ s1, Ok _ s2 => out s1 = out s2
  | Abort k1 s1, Abort k2 s2 => k1 = k2 /\ out s1 = out s2
  | _, _ => False
  end.
Proof.
  intros Hpos Hro Hp.
  set (mT := mkOperands (a, scalar_as_tensor b) o).
  set (mS := mkOperands (a, b) o).
  destruct (resize_tensor_total resize_ok (sizes a) mS)
    as (err & mS' & HrS & HsS).
  assert (HrT0 : resize_tensor resize_ok (sizes a) mT
                 = Ok err (mkOperands (ins mT) (out mS'))).
  { apply (resize_tensor_out _ _ _ mT _ HrS). reflexivity. }
  assert (HrT : resize_to_broadcast_target_size resize_ok a
                  (scalar_as_tensor b) mT
                = match err with
                  | Error.Ok => Ok tt (mkOperands (ins mT) (out mS'))
                  | _ => Abort AllocError (mkOperands (ins mT) (out mS'))
                  end).
  { unfold resize_to_broadcast_target_size.
    change (sizes (scalar_as_tensor b)) with (@nil nat).
    rewrite broadcastShape_scalar by exact Hpos.
    unfold bind. rewrite HrT0. destruct err; reflexivity. }
  rewrite fmod_Tensor_out_run, fmod_Scalar_out_run. cbv zeta.
  change (ins mT).1 with a. change (ins mT).2 with (scalar_as_tensor b).
  change (ins mS).1 with a. change (ins mS).2 with b.
  rewrite HrT, HrS.
  destruct err; [|split; reflexivity].
  pose proof (resize_tensor_ok _ _ _ _ HrS) as (_ & Ht & Hs & _).
  change (scalar_type (out mS)) with (scalar_type o) in Ht.
  simpl out. rewrite Ht, Hro, andb_true_r.
  change (scalar_type (scalar_as_tensor b)) with (get_scalar_dtype b).
  rewrite <- Hp.
  destruct (canCast _ _); [|split; reflexivity].
  destruct (isRealType (promote_type_with_scalar _ _)); [|split; reflexivity].
  unfold numel. rewrite Hs.
  pose proof (shape_numel_pos _ Hpos) as Hn.
  destruct (isIntegralType _ true && is_zero _) eqn:Hz.
  - destruct (shape_numel (sizes a)) as [|n] eqn:En; [lia|].
    assert (Hg0 : fmod_elem (promote_type_with_scalar (scalar_type a) b)
                    (scalar_type o) (operand_a a (sizes a) 0)
                    (operand_b (scalar_as_tensor b) (sizes a) 0) = None).
    { unfold fmod_elem, operand_b. rewrite broadcast_index_scalar.
      change (load (data (scalar_as_tensor b)) 0)
        with (extract_scalar b (get_scalar_dtype b)).
      rewrite Hz. reflexivity. }
    change (seq 0 (S n)) with (0 :: seq 1 n). cbn [run_writes].
    rewrite Hg0. cbn [fst snd]. split; [reflexivity|].
    destruct mS' as [? []]; reflexivity.
  - rewrite (run_writes_ext _
      (fun i => Some (fmod_value (promote_type_with_scalar (scalar_type a) b)
                        (scalar_type o) (load (data a) i)
                        (extract_scalar b (get_scalar_dtype b))))).
    + rewrite (proj2 (run_writes_completes _ _ _));
        [reflexivity | apply Forall_forall; eauto].
    + intros i Hi. apply elem_of_seq in Hi.
      unfold fmod_elem, operand_a, operand_b.
      rewrite broadcast_index_scalar, broadcast_index_same by lia.
      change (load (data (scalar_as_tensor b)) 0)
        with (extract_scalar b (get_scalar_dtype b)).
      rewrite Hz. reflexivity.
Qed.







End More.

(** ** The further properties on concrete calls *)

Lemma fmod_Tensor_out_returns_iff_witness :
  exists r, fmod_Tensor_out canCast_sample resize_always ex_run1 = Ok tt r.
Proof.
  apply (fmod_Tensor_out_returns_iff canCast_sample resize_always ex_run1).
  exists ex_run1. repeat split.
  intros _ i Hi. vm_compute in Hi.
  destruct i as [|[|[|i]]]; [reflexivity | reflexivity | reflexivity | lia].
Defined.

Lemma fmod_Scalar_out_returns_iff_witness :
  (exists r, fmod_Scalar_out canCast_sample resize_always ex_srun1 = Ok tt r)
  /\ ~ (exists r,
          fmod_Scalar_out canCast_sample resize_always ex_scalar_zero
            = Ok tt r).
Proof.
  split.
  - apply (fmod_Scalar_out_returns_iff canCast_sample resize_always ex_srun1).
    split; [exists ex_srun1; reflexivity|]. repeat split.
  - intros H.
    apply (fmod_Scalar_out_returns_iff canCast_sample resize_always
             ex_scalar_zero) in H.
    destruct H as (_ & _ & _ & _ & H). specialize (H eq_refl). discriminate H.
Defined.

Lemma out_tag_and_length_kept_witness :
  scalar_type
    (out (final_state
            (fmod_Tensor_out canCast_sample resize_always ex_zero_second)))
    = Int /\
  wf_tensor
    (out (final_state
            (fmod_Scalar_out canCast_sample resize_always ex_scalar_zero))).
Proof.
  split.
  - apply (proj1 (out_tag_and_length_kept canCast_sample resize_always)
             ex_zero_second).
  - apply (proj2 (out_tag_and_length_kept canCast_sample resize_always)
             ex_scalar_zero).
    reflexivity.
Defined.

Lemma fmod_Tensor_out_result_witness :
  data (out ex_run_result)
  = (fun i => fmod_value Int Int
                (operand_a (int_tensor [3] [5; 7; -3]%Z) [3] i)
                (operand_b (int_tensor [3] [2; 2; 2]%Z) [3] i))
      <$> seq 0 3.
Proof.
  apply (fmod_Tensor_out_result canCast_sample resize_always
           ex_run2 ex_run_result).
  - reflexivity.
  - vm_compute. reflexivity.
Defined.

Lemma fmod_Scalar_out_result_witness :
  data (out ex_srun_result)
  = (fun val_a => fmod_value Long Int val_a (CInt 2))
      <$> [CInt 5; CInt 7; CInt (-3)].
Proof.
  apply (fmod_Scalar_out_result canCast_sample resize_always
           ex_srun2 ex_srun_result).
  - reflexivity.
  - reflexivity.
  - vm_compute. reflexivity.
Defined.

Lemma fmod_Tensor_out_same_shape_witness :
  data (out ex_run_result)
  = zip_with (fmod_value Int Int)
      [CInt 5; CInt 7; CInt (-3)] [CInt 2; CInt 2; CInt 2].
Proof.
  apply (fmod_Tensor_out_same_shape canCast_sample resize_always
           ex_run2 ex_run_result).
  - reflexivity.
  - reflexivity.
  - reflexivity.
  - reflexivity.
  - vm_compute. reflexivity.
Defined.

Lemma aborts_store_nothing_witness :
  (ex_scalar_zero_resized = ex_scalar_zero \/
   resize_tensor resize_always [2] ex_scalar_zero
     = Ok Error.Ok ex_scalar_zero_resized) /\
  (ex_bad_cast_resized = ex_bad_cast \/
   resize_to_broadcast_target_size resize_always
     (ins ex_bad_cast).1 (ins ex_bad_cast).2 ex_bad_cast
     = Ok tt ex_bad_cast_resized).
Proof.
  split.
  - apply (proj1 (aborts_store_nothing canCast_sample resize_always)
             ex_scalar_zero ex_scalar_zero_resized DomainViolation).
    vm_compute. reflexivity.
  - apply (proj2 (aborts_store_nothing canCast_sample resize_always)
             ex_bad_cast ex_bad_cast_resized CastNotAllowed).
    + vm_compute. reflexivity.
    + discriminate.
Defined.

Lemma domain_violation_only_on_zero_divisor_witness :
  (isIntegralType Int true = true /\
   exists m' i,
     resize_to_broadcast_target_size resize_always
       (ins ex_zero_second).1 (ins ex_zero_second).2 ex_zero_second
       = Ok tt m' /\
     i < numel (out m') /\
     is_zero (operand_b (ins ex_zero_second).2 (sizes (out m')) i) = true) /\
  (isIntegralType Long true = true /\ is_zero (CInt 0) = true).
Proof.
  split.
  - apply (proj1 (domain_violation_only_on_zero_divisor
                    canCast_sample resize_always)
             ex_zero_second (with_data ex_zero_second [CInt 1; CInt 9])).
    vm_compute. reflexivity.
  - apply (proj2 (domain_violation_only_on_zero_divisor
                    canCast_sample resize_always)
             ex_scalar_zero ex_scalar_zero_resized).
    vm_compute. reflexivity.
Defined.

Lemma empty_output_returns_untouched_witness :
  fmod_Tensor_out canCast_sample resize_always ex_empty = Ok tt ex_empty /\
  fmod_Scalar_out canCast_sample resize_always ex_empty_scalar
    = Abort DomainViolation ex_empty_scalar.
Proof.
  split.
  - apply (proj1 (empty_output_returns_untouched
                    canCast_sample resize_always) ex_empty ex_empty);
      reflexivity.
  - apply (proj2 (empty_output_returns_untouched
                    canCast_sample resize_always)
             ex_empty_scalar ex_empty_scalar);
      reflexivity.
Defined.

Lemma fmod_value_small_integer_exact_witness :
  fmod_value Int Int (CInt (-7)) (CInt 2) = CInt (Z.rem (-7) 2) /\
  (Z.abs (Z.rem (-7) 2) < Z.abs 2)%Z /\
  (Z.rem (-7) 2 <> 0%Z -> Z.sgn (Z.rem (-7) 2) = Z.sgn (-7)).
Proof.
  apply (fmod_value_small_integer_exact Int (-7) 2).
  - simpl. auto.
  - reflexivity.
  - reflexivity.
  - discriminate.
Defined.

Lemma fmod_value_long_window_witness :
  fmod_value Long Long (CInt (- (2 ^ 40 + 1))) (CInt 3)
  = CInt (Z.rem (- (2 ^ 40 + 1)) 3).
Proof.
  apply (proj1 fmod_value_long_window).
  - reflexivity.
  - reflexivity.
  - discriminate.
Defined.

Lemma fmod_Tensor_out_small_integers_witness :
  exists za zb,
    operand_a (ins ex_run2).1 (sizes (out ex_run_result)) 2 = CInt za /\
    operand_b (ins ex_run2).2 (sizes (out ex_run_result)) 2 = CInt zb /\
    zb <> 0%Z /\
    data (out ex_run_result) !! 2 = Some (CInt (Z.rem za zb)).
Proof.
  apply (fmod_Tensor_out_small_integers canCast_sample resize_always
           ex_run2 ex_run_result).
  - simpl. auto.
  - reflexivity.
  - repeat (constructor; [eexists; split; reflexivity|]). constructor.
  - repeat (constructor; [eexists; split; reflexivity|]). constructor.
  - reflexivity.
  - vm_compute. reflexivity.
  - vm_compute. lia.
Defined.

Lemma fmod_Scalar_out_as_Tensor_out_witness :
  match fmod_Tensor_out canCast_sample resize_always
          (mkOperands (int_tensor [2] [5; 7]%Z,
                       scalar_as_tensor (ScalarInt 0))
                      (int_tensor [1] [9]%Z)),
        fmod_Scalar_out canCast_sample resize_always ex_scalar_zero with
  | Ok _ s1, Ok _ s2 => out s1 = out s2
  | Abort k1 s1, Abort k2 s2 => k1 = k2 /\ out s1 = out s2
  | _, _ => False
  end.
Proof.
  apply (fmod_Scalar_out_as_Tensor_out canCast_sample resize_always
           (int_tensor [2] [5; 7]%Z) (int_tensor [1] [9]%Z) (ScalarInt 0)).
  - constructor; [lia | constructor].
  - reflexivity.
  - reflexivity.
Defined.


